(** * Behavioural patterns of Design-Patterns-for-Finance

    A shallow embedding of three of the repository's behavioural pattern
    demonstrations and the properties established about them:

    - [State]    : "Behavioral Patterns/State.py"    (order life cycle)
    - [Memento]  : "Behavioral Patterns/Memento.py"  (account snapshots, undo)
    - [Observer] : "Behavioral Patterns/Observer.py" (weather fan-out)

    Python methods are functions in a small state-and-exception monad
    over an explicit store; [print] appends a line to the console. *)

From stdpp Require Import base tactics option list sets strings pretty.
From Stdlib Require Import ZArith Lia.

Local Open Scope Z_scope.

(** ** Python values, exceptions and the method monad *)

Module Py.

(** Object identity: the position of the object in the store. *)
Abbreviation loc := nat.

(** The exceptions the embedded methods can raise.  [AttributeError]
    stands for a method call on an object of the wrong class. *)
Inductive exn :=
| ValueError (msg : string)
| AttributeError
| RuntimeError (msg : string).

(** The values the embedded methods return. *)
Inductive value :=
| VNone
| VInt (z : Z)
| VRef (l : loc).

(** How a call ends: it returns a value or an exception escapes. *)
Inductive result (A : Type) :=
| Ret (a : A)
| Raise (e : exn).
Arguments Ret {A} a.
Arguments Raise {A} e.

(** The world a method runs in: the objects and the console. *)
Record world (S : Type) := World { store : S; stdout : list string }.
Arguments World {S} store stdout.
Arguments store {S} w.
Arguments stdout {S} w.

Definition M (S A : Type) : Type := world S → result A * world S.

Section Monad.
Context {S : Type}.

Global Instance M_ret : MRet (M S) := λ A a w, (Ret a, w).

(** Sequencing: an exception raised by the first part skips the rest. *)
Global Instance M_bind : MBind (M S) := λ A B k m w,
  match m w with
  | (Ret a, w') => k a w'
  | (Raise e, w') => (Raise e, w')
  end.

(** [raise e]: the statement [raise e]. *)
Definition raise {A} (e : exn) : M S A := λ w, (Raise e, w).

(** [print line]: one more line on the console; returns [None]. *)
Definition print (line : string) : M S value :=
  λ w, (Ret VNone, World (store w) (stdout w ++ [line])).

Definition get : M S S := λ w, (Ret (store w), w).

Definition put (s : S) : M S value :=
  λ w, (Ret VNone, World s (stdout w)).

(** What a call returned, and the world it left. *)
Definition outcome {A} (m : M S A) (w : world S) : result A := (m w).1.
Definition exec {A} (m : M S A) (w : world S) : world S := (m w).2.
End Monad.

End Py.
Import Py.

(** ** State.py: the order life cycle *)

Module State.

(** The three concrete state classes; they have no fields, so an
    instance is the class tag. *)
Inductive OrderState :=
| NewOrderState
| FilledOrderState
| CancelledOrderState.

(** [class Order]: the context, holding the current state object. *)
Record Order := { _state : OrderState }.

(** [Order.__init__] *)
Definition Order__init__ : Order := {| _state := NewOrderState |}.

(** [Order.set_state] *)
Definition set_state (state : OrderState) : M Order value :=
  put {| _state := state |}.

(** [process] of each concrete state class. *)
Definition OrderState_process (self : OrderState) : M Order value :=
  match self with
  | NewOrderState =>
      print "Processing new order.";;
      set_state FilledOrderState;;
      mret VNone
  | FilledOrderState =>
      print "Order already filled.";;
      mret VNone
  | CancelledOrderState =>
      print "Cannot process a cancelled order.";;
      mret VNone
  end.

(** [cancel] of each concrete state class. *)
Definition OrderState_cancel (self : OrderState) : M Order value :=
  match self with
  | NewOrderState =>
      print "Cancelling new order.";;
      set_state CancelledOrderState;;
      mret VNone
  | FilledOrderState =>
      print "Cancelling filled order.";;
      set_state CancelledOrderState;;
      mret VNone
  | CancelledOrderState =>
      print "Order already cancelled.";;
      mret VNone
  end.

(** [Order.process] and [Order.cancel]: delegate to the state object. *)
Definition process : M Order value :=
  order ← get;
  OrderState_process (_state order);;
  mret VNone.

Definition cancel : M Order value :=
  order ← get;
  OrderState_cancel (_state order);;
  mret VNone.

(** The two requests a client can send to an order; [fill] is the
    specification's name for [Order.process]. *)
Inductive Event := fill | cancel_ev.

Global Instance Event_eq_dec : EqDecision Event.
Proof. solve_decision. Defined.

Definition send (e : Event) : M Order value :=
  match e with
  | fill => process
  | cancel_ev => cancel
  end.

(** A client sending a sequence of requests, one after the other. *)
Definition send_all (evs : list Event) (w : world Order) : world Order :=
  foldl (λ w e, exec (send e) w) w evs.

(** A freshly constructed order and an empty console. *)
Definition fresh : world Order := World Order__init__ [].

(** An order that has reached the state [s], and an empty console. *)
Definition order_in (s : OrderState) : world Order :=
  World {| _state := s |} [].

(** *** The worked-example transition table, as the specification words it *)

Inductive Tag := New | Filled | Cancelled.
Inductive Reason := UnknownEvent | TerminalState.
Inductive Outcome :=
| Next (nextTag : Tag)
| Rejected (reason : Reason).

Definition TransitionTable (t : Tag) (e : Event) : Outcome :=
  match t, e with
  | New, fill => Next Filled
  | New, cancel_ev => Next Cancelled
  | Filled, cancel_ev => Next Cancelled
  | Filled, fill => Rejected UnknownEvent
  | Cancelled, _ => Rejected TerminalState
  end.

(** One step of the fold: a rejected entry leaves the tag in place. *)
Definition table_step (t : Tag) (e : Event) : Tag :=
  match TransitionTable t e with
  | Next t' => t'
  | Rejected _ => t
  end.

(** The tag a state object stands for. *)
Definition tag_of (s : OrderState) : Tag :=
  match s with
  | NewOrderState => New
  | FilledOrderState => Filled
  | CancelledOrderState => Cancelled
  end.

Definition currentTag (w : world Order) : Tag := tag_of (_state (store w)).

(** The line a state prints when it turns a request down. *)
Definition refusal_line (s : OrderState) (e : Event) : string :=
  match s, e with
  | FilledOrderState, fill => "Order already filled."
  | CancelledOrderState, fill => "Cannot process a cancelled order."
  | CancelledOrderState, cancel_ev => "Order already cancelled."
  | _, _ => ""
  end.

End State.


(** ** Memento.py: account snapshots and undo *)

Module Memento.

(** The objects of the program, each with the fields its class
    gives it.  [Account._balance] and [Memento._balance] hold Python
    integers; [Caretaker._account] and the entries of
    [Caretaker._history] are references to other objects. *)
Inductive obj :=
| MementoObj (_balance : Z)
| AccountObj (_balance : Z)
| CaretakerObj (_account : loc) (_history : list loc).

(** The store: the objects created so far; an object's identity is its
    position. *)
Abbreviation heap := (list obj).

(** Object creation: the new object gets the next free identity. *)
Definition new (o : obj) : M heap loc :=
  λ w, (Ret (length (store w)), World (store w ++ [o]) (stdout w)).

(** Field access through a method of the class; a receiver of another
    class has no such method. *)
Definition Account_balance (self : loc) : M heap Z :=
  h ← get;
  match h !! self with
  | Some (AccountObj b) => mret b
  | _ => raise AttributeError
  end.

Definition Account_set_balance (self : loc) (b : Z) : M heap value :=
  h ← get; put (<[self := AccountObj b]> h).

Definition Caretaker_fields (self : loc) : M heap (loc * list loc) :=
  h ← get;
  match h !! self with
  | Some (CaretakerObj account history) => mret (account, history)
  | _ => raise AttributeError
  end.

Definition Caretaker_set_history (self account : loc) (history : list loc)
  : M heap value :=
  h ← get; put (<[self := CaretakerObj account history]> h).

(** [list.pop()]: the last entry and the entries before it. *)
Definition pop {A} (l : list A) : option (A * list A) :=
  match reverse l with
  | [] => None
  | x :: before => Some (x, reverse before)
  end.

(** *** class Memento *)

Definition Memento__init__ (balance : Z) : M heap loc :=
  new (MementoObj balance).

Definition get_saved_state (self : loc) : M heap Z :=
  h ← get;
  match h !! self with
  | Some (MementoObj b) => mret b
  | _ => raise AttributeError
  end.

(** *** class Account *)

Definition Account__init__ : M heap loc := new (AccountObj 0).

Definition deposit (self : loc) (amount : Z) : M heap value :=
  b ← Account_balance self;
  Account_set_balance self (b + amount);;
  mret VNone.

Definition withdraw (self : loc) (amount : Z) : M heap value :=
  b ← Account_balance self;
  if bool_decide (amount > b) then raise (ValueError "Insufficient funds")
  else
    Account_set_balance self (b - amount);;
    mret VNone.

Definition get_balance (self : loc) : M heap Z := Account_balance self.

Definition save_state (self : loc) : M heap loc :=
  b ← Account_balance self;
  Memento__init__ b.

Definition restore_state (self memento : loc) : M heap value :=
  _ ← Account_balance self;
  b ← get_saved_state memento;
  Account_set_balance self b;;
  mret VNone.

(** *** class Caretaker *)

Definition Caretaker__init__ (account : loc) : M heap loc :=
  new (CaretakerObj account []).

Definition save (self : loc) : M heap value :=
  '(account, _) ← Caretaker_fields self;
  memento ← save_state account;
  '(_, history) ← Caretaker_fields self;
  Caretaker_set_history self account (history ++ [memento]);;
  mret VNone.

Definition undo (self : loc) : M heap value :=
  '(account, history) ← Caretaker_fields self;
  match pop history with
  | None =>
      print "No states to restore";;
      mret VNone
  | Some (memento, history') =>
      Caretaker_set_history self account history';;
      restore_state account memento;;
      mret VNone
  end.

(** *** Clients *)

(** A mutation of the live account. *)
Inductive mutation :=
| Deposit (amount : Z)
| Withdraw (amount : Z).

Definition mutate (account : loc) (m : mutation) : M heap value :=
  match m with
  | Deposit amount => deposit account amount
  | Withdraw amount => withdraw account amount
  end.

(** A client applying mutations one after the other, carrying on after a
    refused withdrawal. *)
Definition mutate_all (account : loc) (ms : list mutation) (w : world heap)
  : world heap :=
  foldl (λ w m, exec (mutate account m) w) w ms.

(** The balance of the account object at [a], if there is one. *)
Definition balance_at (a : loc) (w : world heap) : option Z :=
  match store w !! a with
  | Some (AccountObj b) => Some b
  | _ => None
  end.

(** The value held by the memento object at [m], if there is one. *)
Definition saved_at (m : loc) (w : world heap) : option Z :=
  match store w !! m with
  | Some (MementoObj b) => Some b
  | _ => None
  end.

(** The history of the caretaker object at [c], if there is one. *)
Definition history_at (c : loc) (w : world heap) : option (list loc) :=
  match store w !! c with
  | Some (CaretakerObj _ history) => Some history
  | _ => None
  end.

(** No object yet and an empty console. *)
Definition empty : world heap := World [] [].

(** The main block of the file up to its first deposit, and up to its
    first save: account at 0, caretaker at 1, first memento at 2. *)
Definition after_first_deposit : world heap :=
  exec (account ← Account__init__;
        caretaker ← Caretaker__init__ account;
        deposit account 100) empty.

Definition after_first_save : world heap := exec (save 1) after_first_deposit.

(** The client of scenario B: the main block of the file, with a third
    [undo] appended.  It returns the balance read after each step and
    what the third [undo] returned. *)
Definition scenario_B : M heap (list Z * value) :=
  account ← Account__init__;
  caretaker ← Caretaker__init__ account;
  deposit account 100;;
  b1 ← get_balance account;
  save caretaker;;
  deposit account 50;;
  b2 ← get_balance account;
  withdraw account 30;;
  b3 ← get_balance account;
  save caretaker;;
  withdraw account 100;;
  b4 ← get_balance account;
  undo caretaker;;
  b5 ← get_balance account;
  undo caretaker;;
  b6 ← get_balance account;
  r ← undo caretaker;
  b7 ← get_balance account;
  mret ([b1; b2; b3; b4; b5; b6; b7], r).

(** *** A client using every operation *)

(** What a client can ask for: a mutation of the live account, a save
    or an undo through the caretaker. *)
Inductive op :=
| Mutate (m : mutation)
| Save
| Undo.

Definition step (account caretaker : loc) (o : op) : M heap value :=
  match o with
  | Mutate m => mutate account m
  | Save => save caretaker
  | Undo => undo caretaker
  end.

(** A client issuing the operations one after the other, carrying on
    after a refused withdrawal. *)
Definition run (account caretaker : loc) (ops : list op) (w : world heap)
  : world heap :=
  foldl (λ w o, exec (step account caretaker o) w) w ops.

(** The values held by the mementos of the history of the caretaker at
    [c], oldest first. *)
Definition snapshots (c : loc) (w : world heap) : option (list Z) :=
  history_at c w ≫= mapM (λ m, saved_at m w).

(** A balance with a stack of saved balances, and what each operation
    does to them: the yardstick the objects are compared with. *)
Definition ledger_step (l : Z * list Z) (o : op) : Z * list Z :=
  match o with
  | Mutate (Deposit amount) => (l.1 + amount, l.2)
  | Mutate (Withdraw amount) =>
      if bool_decide (amount > l.1) then l else (l.1 - amount, l.2)
  | Save => (l.1, l.2 ++ [l.1])
  | Undo =>
      match pop l.2 with
      | None => l
      | Some (v, older) => (v, older)
      end
  end.

(** The objects at [account] and [caretaker] stand for the ledger [l]:
    the caretaker looks after that account, the balance is the ledger's,
    and the mementos of the history hold the ledger's saved balances. *)
Definition tracks (account caretaker : loc) (w : world heap)
    (l : Z * list Z) : Prop :=
  (∃ history, store w !! caretaker = Some (CaretakerObj account history)) ∧
  balance_at account w = Some l.1 ∧
  snapshots caretaker w = Some l.2.

End Memento.


(** ** Observer.py: the weather subject and its displays *)

Module Observer.

(** [class WeatherData]: the registered observers, in the order they
    were attached, and the current temperature.  Observers are objects;
    the list holds their identities, which is what [in] and
    [list.remove] compare. *)
Record WeatherData := { _observers : list loc; _temperature : Z }.

(** The store: the subject, and a record of every call of an observer's
    [update] (who was called, with what temperature), kept to state what
    was delivered. *)
Record Store := { weather_data : WeatherData; delivered : list (loc * Z) }.

(** [Observer] is an abstract class: a subclass may put any code in
    [update].  The body of an [update] is a list of the steps that
    matter to the subject: printing, attaching or detaching an observer
    of the same subject, raising. *)
Inductive action :=
| Print (line : string)
| Attach (observer : loc)
| Detach (observer : loc)
| Throw (e : exn).

(** The two concrete observers of the file. *)
Definition TemperatureDisplay_update (temperature : Z) : list action :=
  [Print ("Temperature Display: Current temperature is "
          +:+ pretty temperature +:+ "°C")].

Definition HumidityDisplay_update (temperature : Z) : list action :=
  let humidity := 100 - temperature in
  [Print ("Humidity Display: Current humidity is "
          +:+ pretty humidity +:+ "%")].

(** [WeatherData.__init__] *)
Definition WeatherData__init__ : WeatherData :=
  {| _observers := []; _temperature := 0 |}.

Definition set_observers (observers : list loc) : M Store value :=
  s ← get;
  put {| weather_data := {| _observers := observers;
                            _temperature := _temperature (weather_data s) |};
         delivered := delivered s |}.

(** [list.remove(x)]: drops the first entry equal to [x]. *)
Fixpoint remove_first (x : loc) (l : list loc) : list loc :=
  match l with
  | [] => []
  | y :: l' => if decide (y = x) then l' else y :: remove_first x l'
  end.

(** [WeatherData.attach] *)
Definition attach (observer : loc) : M Store value :=
  s ← get;
  if bool_decide (observer ∈ _observers (weather_data s)) then mret VNone
  else
    set_observers (_observers (weather_data s) ++ [observer]);;
    mret VNone.

(** [WeatherData.detach] *)
Definition detach (observer : loc) : M Store value :=
  s ← get;
  if bool_decide (observer ∈ _observers (weather_data s)) then
    set_observers (remove_first observer (_observers (weather_data s)));;
    mret VNone
  else mret VNone.

(** Running the body of an [update]. *)
Fixpoint run_body (body : list action) : M Store value :=
  match body with
  | [] => mret VNone
  | Print line :: rest => print line;; run_body rest
  | Attach o :: rest => attach o;; run_body rest
  | Detach o :: rest => detach o;; run_body rest
  | Throw e :: _ => raise e
  end.

Section Subject.

(** What [update] of the observer object [o] does when called with a
    temperature. *)
Variable update_body : loc → Z → list action.

(** The call [observer.update(temperature)]. *)
Definition update (observer : loc) (temperature : Z) : M Store value :=
  s ← get;
  put {| weather_data := weather_data s;
         delivered := delivered s ++ [(observer, temperature)] |};;
  run_body (update_body observer temperature).

(** The loop of [WeatherData.notify].  A Python [for] over a list reads
    the live list by position: entry 0, then entry 1, and so on until
    the position is past the end of the list as it is then.  [None]
    means the bound on the number of rounds was reached first. *)
Fixpoint notify_from (rounds : nat) (i : nat) : M Store (option value) :=
  match rounds with
  | O => mret None
  | S rounds' =>
      s ← get;
      match _observers (weather_data s) !! i with
      | None => mret (Some VNone)
      | Some observer =>
          update observer (_temperature (weather_data s));;
          notify_from rounds' (S i)
      end
  end.

(** [WeatherData.notify] *)
Definition notify (rounds : nat) : M Store (option value) :=
  notify_from rounds 0.

(** [WeatherData.set_temperature] *)
Definition set_temperature (rounds : nat) (temperature : Z)
  : M Store (option value) :=
  s ← get;
  put {| weather_data := {| _observers := _observers (weather_data s);
                            _temperature := temperature |};
         delivered := delivered s |};;
  notify rounds.

End Subject.

(** A subject with the given registry and temperature, nothing
    delivered yet, and an empty console. *)
Definition subject (observers : list loc) (temperature : Z) : world Store :=
  World {| weather_data := {| _observers := observers;
                              _temperature := temperature |};
           delivered := [] |} [].

Definition observers_of (w : world Store) : list loc :=
  _observers (weather_data (store w)).

Definition temperature_of (w : world Store) : Z :=
  _temperature (weather_data (store w)).

(** The observers whose [update] was called, in the order of the calls. *)
Definition notified (w : world Store) : list loc := (delivered (store w)).*1.

(** How often [update] of [o] was called. *)
Definition deliveries_to (o : loc) (w : world Store) : nat :=
  List.length (filter (λ d, d.1 = o) (delivered (store w))).

(** How often [o] is registered. *)
Definition registrations (o : loc) (w : world Store) : nat :=
  List.length (filter (λ x, x = o) (observers_of w)).

(** The world [w] with another registry. *)
Definition with_observers (observers : list loc) (w : world Store)
  : world Store :=
  World {| weather_data := {| _observers := observers;
                              _temperature := temperature_of w |};
           delivered := delivered (store w) |} (stdout w).

(** The world [w] after further calls of [update] were recorded and
    further lines printed. *)
Definition extended (calls : list (loc * Z)) (lines : list string)
    (w : world Store) : world Store :=
  World {| weather_data := weather_data (store w);
           delivered := delivered (store w) ++ calls |} (stdout w ++ lines).

(** The world [w] with another temperature. *)
Definition with_temperature (temperature : Z) (w : world Store)
  : world Store :=
  World {| weather_data := {| _observers := observers_of w;
                              _temperature := temperature |};
           delivered := delivered (store w) |} (stdout w).

(** An [update] that only prints, like the two displays of the file. *)
Definition prints_only (body : list action) : Prop :=
  Forall (λ a, match a with Print _ => True | _ => False end) body.

(** A step that does not raise. *)
Definition quiet (a : action) : Prop :=
  match a with Throw _ => False | _ => True end.

(** The lines a body prints. *)
Definition lines_of (body : list action) : list string :=
  omap (λ a, match a with Print line => Some line | _ => None end) body.

(** *** Observers used as examples *)

(** The client of the file: a temperature display at 0, a humidity
    display at 1 (and any further observer a humidity display). *)
Definition displays (o : loc) (t : Z) : list action :=
  match o with
  | O => TemperatureDisplay_update t
  | _ => HumidityDisplay_update t
  end.

(** Observer 0 detaches itself when notified. *)
Definition one_shot (o : loc) (t : Z) : list action :=
  match o with
  | O => [Detach 0]
  | _ => HumidityDisplay_update t
  end.

(** Observer 1 detaches observer 0 and attaches it again. *)
Definition reattaching (o : loc) (t : Z) : list action :=
  match o with
  | 1%nat => [Detach 0; Attach 0]
  | _ => TemperatureDisplay_update t
  end.

(** Observer 0 raises when notified. *)
Definition failing (o : loc) (t : Z) : list action :=
  match o with
  | O => [Throw (RuntimeError "display broken")]
  | _ => HumidityDisplay_update t
  end.

(** *** Clients of the subject *)

(** A newly created subject, nothing delivered yet, an empty console. *)
Definition subject_new : world Store :=
  World {| weather_data := WeatherData__init__; delivered := [] |} [].

(** What a client can ask of the subject. *)
Inductive request :=
| DoAttach (observer : loc)
| DoDetach (observer : loc)
| DoSet (temperature : Z).

Definition serve (update_body : loc → Z → list action) (rounds : nat)
    (r : request) : M Store (option value) :=
  match r with
  | DoAttach o => attach o;; mret (Some VNone)
  | DoDetach o => detach o;; mret (Some VNone)
  | DoSet t => set_temperature update_body rounds t
  end.

(** A client issuing the requests one after the other, carrying on
    after an exception. *)
Definition serve_all (update_body : loc → Z → list action) (rounds : nat)
    (rs : list request) (w : world Store) : world Store :=
  foldl (λ w r, exec (serve update_body rounds r) w) w rs.


End Observer.


(** * Properties *)

(** ** Stepping through a method body *)

Module PyFacts.

Lemma bind_Ret {S A B} (m : M S A) (k : A → M S B) w a w' :
  m w = (Ret a, w') → (m ≫= k) w = k a w'.
Proof. intros H. unfold mbind, M_bind. by rewrite H. Qed.

Lemma bind_Raise {S A B} (m : M S A) (k : A → M S B) w e w' :
  m w = (Raise e, w') → (m ≫= k) w = (Raise e, w').
Proof. intros H. unfold mbind, M_bind. by rewrite H. Qed.

End PyFacts.

(** ** The order life cycle *)

Module StateFacts.
Import State.

(** Every request returns [None] and leaves a world that differs from the
    one it found by the state object and one console line. *)
Lemma send_unfold (s : OrderState) (out : list string) (e : Event) :
  send e (World {| _state := s |} out) =
  (Ret VNone,
   World {| _state := match TransitionTable (tag_of s) e with
                      | Next Filled => FilledOrderState
                      | Next _ => CancelledOrderState
                      | Rejected _ => s
                      end |}
         (out ++ [match s, e with
                  | NewOrderState, fill => "Processing new order."
                  | NewOrderState, cancel_ev => "Cancelling new order."
                  | FilledOrderState, cancel_ev => "Cancelling filled order."
                  | _, _ => refusal_line s e
                  end])).
Proof. destruct s, e; reflexivity. Qed.

Lemma send_returns_None (w : world Order) (e : Event) :
  outcome (send e) w = Ret VNone.
Proof. destruct w as [[s] out]. unfold outcome. by rewrite send_unfold. Qed.

Lemma currentTag_send (w : world Order) (e : Event) :
  currentTag (exec (send e) w) = table_step (currentTag w) e.
Proof.
  destruct w as [[s] out]. unfold exec, currentTag, table_step.
  rewrite send_unfold. simpl. by destruct s, e.
Qed.

Lemma currentTag_send_all (evs : list Event) (w : world Order) :
  currentTag (send_all evs w) = foldl table_step (currentTag w) evs.
Proof.
  revert w. induction evs as [|e evs IH]; intros w; simpl; [done|].
  unfold send_all in *. simpl. by rewrite IH, currentTag_send.
Qed.

(** C1: for every finite sequence of requests sent to a freshly created
    order, the tag of the order afterwards is the fold of the worked-example
    transition table over the sequence from [New], a rejected entry leaving
    the tag where it was. *)
Theorem order_tag_is_table_fold (evs : list Event) :
  currentTag (send_all evs fresh) = foldl table_step New evs.
Proof. apply currentTag_send_all. Qed.

(** C3, as the specification states it, fails: [process] returns [None]
    from the filled state and from the cancelled state alike, so no reason
    ([UnknownEvent] or [TerminalState]) can be read off the returned value. *)
Lemma refusal_reason_not_returned :
  outcome process (order_in FilledOrderState) = Ret VNone ∧
  outcome process (order_in CancelledOrderState) = Ret VNone ∧
  ¬ ∃ IllegalTransition : result value → Reason,
      ∀ (w : world Order) (e : Event) (r : Reason),
        TransitionTable (currentTag w) e = Rejected r →
        IllegalTransition (outcome (send e) w) = r.
Proof.
  split; [reflexivity|]. split; [reflexivity|]. intros [signal H].
  pose proof (H (order_in FilledOrderState) fill UnknownEvent eq_refl) as H1.
  pose proof (H (order_in CancelledOrderState) fill TerminalState eq_refl) as H2.
  rewrite send_returns_None in H1, H2. congruence.
Qed.

(** C3, amended: for every order and every request that the transition
    table rejects (any request to a cancelled order, [process] to a filled
    one), the call leaves the state object of the order as it was, returns
    [None] as every call does, and its only effect is one line on the
    console saying why the request was not carried out; [Order] has no
    observers, so nothing is notified. *)
Theorem rejected_request_only_prints (w : world Order) (e : Event) (r : Reason) :
  TransitionTable (currentTag w) e = Rejected r →
  send e w =
  (Ret VNone,
   World (store w) (stdout w ++ [refusal_line (_state (store w)) e])).
Proof.
  destruct w as [[s] out]. unfold currentTag. simpl. intros Hrej.
  rewrite send_unfold. by destruct s, e.
Qed.

Lemma rejected_request_only_prints_witness :
  send fill (order_in CancelledOrderState) =
  (Ret VNone,
   World {| _state := CancelledOrderState |}
         ["Cannot process a cancelled order."]).
Proof.
  apply (rejected_request_only_prints (order_in CancelledOrderState) fill
           TerminalState eq_refl).
Defined.

End StateFacts.

(** ** Snapshots and undo *)

Module MementoFacts.
Import Memento PyFacts.

(** *** Reading the fields of an object *)

Lemma Account_balance_ok (w : world heap) self b :
  store w !! self = Some (AccountObj b) → Account_balance self w = (Ret b, w).
Proof. intros H. unfold Account_balance, mbind, M_bind, get. by rewrite H. Qed.

Lemma Account_balance_cases (w : world heap) self :
  (∃ b, store w !! self = Some (AccountObj b)) ∨
  Account_balance self w = (Raise AttributeError, w).
Proof.
  unfold Account_balance, mbind, M_bind, get.
  destruct (store w !! self) as [[| |]|]; eauto.
Qed.

Lemma get_saved_state_ok (w : world heap) self b :
  store w !! self = Some (MementoObj b) → get_saved_state self w = (Ret b, w).
Proof. intros H. unfold get_saved_state, mbind, M_bind, get. by rewrite H. Qed.

Lemma Caretaker_fields_ok (w : world heap) self account history :
  store w !! self = Some (CaretakerObj account history) →
  Caretaker_fields self w = (Ret (account, history), w).
Proof. intros H. unfold Caretaker_fields, mbind, M_bind, get. by rewrite H. Qed.

Lemma pop_snoc {A} (l : list A) (x : A) : pop (l ++ [x]) = Some (x, l).
Proof. unfold pop. by rewrite reverse_snoc, reverse_involutive. Qed.

Lemma pop_nil {A} : pop (@nil A) = None.
Proof. reflexivity. Qed.

(** *** The methods of [Account] *)

Lemma deposit_ok (w : world heap) self b amount :
  store w !! self = Some (AccountObj b) →
  deposit self amount w =
  (Ret VNone, World (<[self := AccountObj (b + amount)]> (store w)) (stdout w)).
Proof.
  intros H. unfold deposit.
  by rewrite (bind_Ret _ _ _ _ _ (Account_balance_ok _ _ _ H)).
Qed.

Lemma withdraw_refused (w : world heap) self b amount :
  store w !! self = Some (AccountObj b) → amount > b →
  withdraw self amount w = (Raise (ValueError "Insufficient funds"), w).
Proof.
  intros H Hgt. unfold withdraw.
  rewrite (bind_Ret _ _ _ _ _ (Account_balance_ok _ _ _ H)).
  by rewrite bool_decide_true.
Qed.

Lemma withdraw_ok (w : world heap) self b amount :
  store w !! self = Some (AccountObj b) → amount ≤ b →
  withdraw self amount w =
  (Ret VNone, World (<[self := AccountObj (b - amount)]> (store w)) (stdout w)).
Proof.
  intros H Hle. unfold withdraw.
  rewrite (bind_Ret _ _ _ _ _ (Account_balance_ok _ _ _ H)).
  by rewrite bool_decide_false by lia.
Qed.

Lemma restore_state_ok (w : world heap) self memento b v :
  store w !! self = Some (AccountObj b) →
  store w !! memento = Some (MementoObj v) →
  restore_state self memento w =
  (Ret VNone, World (<[self := AccountObj v]> (store w)) (stdout w)).
Proof.
  intros Ha Hm. unfold restore_state.
  rewrite (bind_Ret _ _ _ _ _ (Account_balance_ok _ _ _ Ha)).
  by rewrite (bind_Ret _ _ _ _ _ (get_saved_state_ok _ _ _ Hm)).
Qed.

(** A mutation of an account writes the cell of that account and no
    other, and never the console. *)
Lemma mutate_cases (w : world heap) account mu :
  exec (mutate account mu) w = w ∨
  ∃ b b', store w !! account = Some (AccountObj b) ∧
          exec (mutate account mu) w =
          World (<[account := AccountObj b']> (store w)) (stdout w).
Proof.
  destruct (Account_balance_cases w account) as [[b Hb]|Hno].
  - destruct mu as [amount|amount]; simpl.
    + right. exists b, (b + amount). split; [done|].
      unfold exec. by rewrite (deposit_ok _ _ _ _ Hb).
    + destruct (decide (amount > b)) as [Hgt|Hle].
      * left. unfold exec. by rewrite (withdraw_refused _ _ _ _ Hb Hgt).
      * right. exists b, (b - amount). split; [done|].
        unfold exec. rewrite (withdraw_ok _ _ _ _ Hb); [done|lia].
  - left. destruct mu; simpl; unfold exec, deposit, withdraw;
      by rewrite (bind_Raise _ _ _ _ _ Hno).
Qed.

(** Mementos are immutable: no mutation of any account changes what a
    memento holds. *)
Lemma saved_at_mutate (w : world heap) account mu m :
  saved_at m (exec (mutate account mu) w) = saved_at m w.
Proof.
  destruct (mutate_cases w account mu) as [->|(b & b' & Hb & ->)]; [done|].
  unfold saved_at; simpl. destruct (decide (account = m)) as [->|Hne].
  - rewrite Hb. rewrite list_lookup_insert_eq; [done|].
    by eapply lookup_lt_Some.
  - by rewrite list_lookup_insert_ne.
Qed.

Lemma saved_at_mutate_all (ms : list mutation) (w : world heap) account m :
  saved_at m (mutate_all account ms w) = saved_at m w.
Proof.
  revert w. induction ms as [|mu ms IH]; intros w; [done|].
  unfold mutate_all in *. simpl. by rewrite IH, saved_at_mutate.
Qed.

(** Nor does it change the history of a caretaker. *)
Lemma history_at_mutate (w : world heap) account mu c :
  history_at c (exec (mutate account mu) w) = history_at c w.
Proof.
  destruct (mutate_cases w account mu) as [->|(b & b' & Hb & ->)]; [done|].
  unfold history_at; simpl. destruct (decide (account = c)) as [->|Hne].
  - rewrite Hb. rewrite list_lookup_insert_eq; [done|].
    by eapply lookup_lt_Some.
  - by rewrite list_lookup_insert_ne.
Qed.

Lemma caretaker_mutate (w : world heap) account mu c a h :
  store w !! c = Some (CaretakerObj a h) →
  store (exec (mutate account mu) w) !! c = Some (CaretakerObj a h).
Proof.
  intros Hc.
  destruct (mutate_cases w account mu) as [->|(b & b' & Hb & ->)]; [done|].
  simpl. rewrite list_lookup_insert_ne; [done|]. intros ->. congruence.
Qed.

(** An account stays an account. *)
Lemma account_mutate (w : world heap) account mu a b :
  store w !! a = Some (AccountObj b) →
  ∃ b', store (exec (mutate account mu) w) !! a = Some (AccountObj b').
Proof.
  intros Ha.
  destruct (mutate_cases w account mu) as [->|(b0 & b' & Hb & ->)]; [eauto|].
  simpl. destruct (decide (account = a)) as [->|Hne].
  - exists b'. rewrite list_lookup_insert_eq; [done|]. by eapply lookup_lt_Some.
  - exists b. by rewrite list_lookup_insert_ne.
Qed.

Lemma history_at_mutate_all (ms : list mutation) (w : world heap) account c :
  history_at c (mutate_all account ms w) = history_at c w.
Proof.
  revert w. induction ms as [|mu ms IH]; intros w; [done|].
  unfold mutate_all in *. simpl. by rewrite IH, history_at_mutate.
Qed.

Lemma caretaker_mutate_all (ms : list mutation) (w : world heap) account c a h :
  store w !! c = Some (CaretakerObj a h) →
  store (mutate_all account ms w) !! c = Some (CaretakerObj a h).
Proof.
  revert w. induction ms as [|mu ms IH]; intros w Hc; [done|].
  unfold mutate_all in *. simpl. by apply IH, caretaker_mutate.
Qed.

Lemma account_mutate_all (ms : list mutation) (w : world heap) account a b :
  store w !! a = Some (AccountObj b) →
  ∃ b', store (mutate_all account ms w) !! a = Some (AccountObj b').
Proof.
  revert w b. induction ms as [|mu ms IH]; intros w b Ha; [eauto|].
  unfold mutate_all in *. simpl.
  destruct (account_mutate w account mu a b Ha) as [b1 Hb1]. eauto.
Qed.

Lemma saved_at_Some (w : world heap) m v :
  saved_at m w = Some v ↔ store w !! m = Some (MementoObj v).
Proof.
  unfold saved_at. destruct (store w !! m) as [[| |]|]; naive_solver.
Qed.

(** *** The methods of [Caretaker] *)

Lemma save_ok (w : world heap) c account history b :
  store w !! c = Some (CaretakerObj account history) →
  store w !! account = Some (AccountObj b) →
  save c w =
  (Ret VNone,
   World (<[c := CaretakerObj account (history ++ [length (store w)])]>
            (store w ++ [MementoObj b]))
         (stdout w)).
Proof.
  intros Hc Ha. unfold save.
  rewrite (bind_Ret _ _ _ _ _ (Caretaker_fields_ok _ _ _ _ Hc)).
  unfold save_state.
  rewrite (bind_Ret _ _ (w) (length (store w))
             (World (store w ++ [MementoObj b]) (stdout w))).
  - rewrite (bind_Ret _ _ _ (account, history)
               (World (store w ++ [MementoObj b]) (stdout w))); [done|].
    apply Caretaker_fields_ok. simpl. by apply lookup_app_l_Some.
  - by rewrite (bind_Ret _ _ _ _ _ (Account_balance_ok _ _ _ Ha)).
Qed.

Lemma undo_empty (w : world heap) c account :
  store w !! c = Some (CaretakerObj account []) →
  undo c w = (Ret VNone, World (store w) (stdout w ++ ["No states to restore"])).
Proof.
  intros Hc. unfold undo.
  by rewrite (bind_Ret _ _ _ _ _ (Caretaker_fields_ok _ _ _ _ Hc)).
Qed.

Lemma undo_nonempty (w : world heap) c account before m v b :
  store w !! c = Some (CaretakerObj account (before ++ [m])) →
  store w !! m = Some (MementoObj v) →
  store w !! account = Some (AccountObj b) →
  undo c w =
  (Ret VNone,
   World (<[account := AccountObj v]>
            (<[c := CaretakerObj account before]> (store w)))
         (stdout w)).
Proof.
  intros Hc Hm Ha. unfold undo.
  rewrite (bind_Ret _ _ _ _ _ (Caretaker_fields_ok _ _ _ _ Hc)).
  rewrite pop_snoc.
  assert (c ≠ m) as Hcm by (intros ->; congruence).
  assert (c ≠ account) as Hca by (intros ->; congruence).
  set (w1 := World (<[c := CaretakerObj account before]> (store w)) (stdout w)).
  rewrite (bind_Ret _ _ w VNone w1) by reflexivity.
  rewrite (bind_Ret _ _ w1 VNone
             (World (<[account := AccountObj v]> (store w1)) (stdout w1)));
    [done|].
  apply (restore_state_ok w1 account m b v); simpl;
    by rewrite list_lookup_insert_ne.
Qed.

(** *** The properties of [Memento.py] *)

(** C2: an account starting at balance 0 and taken through deposit(100);
    save(); deposit(50); withdraw(30); save(); withdraw(100); undo();
    undo(); undo() shows the balances 100, 150, 120, 20, then 120 and 100
    after the first two undos; the third undo finds no snapshot, reports it
    on the console with "No states to restore", returns [None] and leaves
    the balance at 100. *)
Theorem scenario_B_balances :
  scenario_B empty =
  (Ret ([100; 150; 120; 20; 120; 100; 100], VNone),
   World [AccountObj 100; CaretakerObj 0 []; MementoObj 100; MementoObj 120]
         ["No states to restore"]).
Proof. vm_compute. reflexivity. Qed.

(** C4, as the specification states it, fails: [undo] returns [None]
    whether or not it found a snapshot, so nothing the caller can compute
    from the returned value tells an empty history from a successful
    restore. *)
Lemma undo_return_does_not_tell :
  outcome (undo 1) after_first_deposit = Ret VNone ∧
  outcome (undo 1) after_first_save = Ret VNone ∧
  ¬ ∃ EmptyHistory : result value → Prop,
      ∀ (w : world heap) c account history,
        store w !! c = Some (CaretakerObj account history) →
        EmptyHistory (outcome (undo c) w) ↔ history = [].
Proof.
  split; [reflexivity|]. split; [reflexivity|].
  intros [P HP].
  pose proof (HP after_first_deposit 1%nat 0%nat [] eq_refl) as H0.
  pose proof (HP after_first_save 1%nat 0%nat [2%nat] eq_refl) as H1.
  change (outcome (undo 1) after_first_deposit) with (@Ret value VNone) in H0.
  change (outcome (undo 1) after_first_save) with (@Ret value VNone) in H1.
  apply proj2 in H0. apply proj1 in H1. specialize (H1 (H0 eq_refl)).
  discriminate.
Qed.

(** C4, amended: for every caretaker whose history is empty, [undo]
    prints "No states to restore", returns [None] and leaves every object
    as it was; when the history is not empty, [undo] removes its last
    memento, writes the value that memento holds into the balance of the
    caretaker's account, and returns [None] as well. *)
Theorem undo_reports_or_restores (w : world heap) c account history :
  store w !! c = Some (CaretakerObj account history) →
  (history = [] →
   undo c w =
   (Ret VNone, World (store w) (stdout w ++ ["No states to restore"]))) ∧
  (∀ before m v b,
     history = before ++ [m] →
     store w !! m = Some (MementoObj v) →
     store w !! account = Some (AccountObj b) →
     undo c w =
     (Ret VNone,
      World (<[account := AccountObj v]>
               (<[c := CaretakerObj account before]> (store w)))
            (stdout w))).
Proof.
  intros Hc. split.
  - intros ->. by eapply undo_empty.
  - intros before m v b -> Hm Ha. by eapply undo_nonempty.
Qed.

Lemma undo_reports_or_restores_witness :
  undo 1 after_first_deposit =
  (Ret VNone,
   World [AccountObj 100; CaretakerObj 0 []] ["No states to restore"]) ∧
  undo 1 (exec (deposit 0 50) after_first_save) =
  (Ret VNone,
   World [AccountObj 100; CaretakerObj 0 []; MementoObj 100] []).
Proof.
  split.
  - apply (proj1 (undo_reports_or_restores after_first_deposit
                    1%nat 0%nat [] eq_refl) eq_refl).
  - apply (proj2 (undo_reports_or_restores
                    (exec (deposit 0 50) after_first_save)
                    1%nat 0%nat [2%nat] eq_refl)
                 [] 2%nat 100 150 eq_refl eq_refl eq_refl).
Defined.

(** C5: the memento created by [save] is an object of its own holding
    the balance of that moment; whatever deposits and withdrawals the live
    account goes through afterwards, the memento still holds that value,
    [undo] brings the balance back to it, and mutating the account again
    after the restore still does not touch the memento. *)
Theorem snapshot_is_by_value (w : world heap) c account history b
    (ms ms' : list mutation) :
  store w !! c = Some (CaretakerObj account history) →
  store w !! account = Some (AccountObj b) →
  let m := length (store w) in
  let w1 := mutate_all account ms (exec (save c) w) in
  let w2 := exec (undo c) w1 in
  m ≠ account ∧
  history_at c w1 = Some (history ++ [m]) ∧
  saved_at m w1 = Some b ∧
  balance_at account w2 = Some b ∧
  saved_at m (mutate_all account ms' w2) = Some b.
Proof.
  intros Hc Ha m w1 w2.
  assert (account < m)%nat as Hlt by (by eapply lookup_lt_Some).
  assert (c < m)%nat as Hltc by (by eapply lookup_lt_Some).
  set (w0 := exec (save c) w) in *.
  assert (w0 = World (<[c := CaretakerObj account (history ++ [m])]>
                        (store w ++ [MementoObj b])) (stdout w)) as Hw0.
  { unfold w0, exec. by rewrite (save_ok _ _ _ _ _ Hc Ha). }
  assert (store w0 !! c = Some (CaretakerObj account (history ++ [m]))) as Hc0.
  { rewrite Hw0; simpl. apply list_lookup_insert_eq.
    rewrite length_app. simpl. fold m. lia. }
  assert (store w0 !! m = Some (MementoObj b)) as Hm0.
  { rewrite Hw0; simpl. rewrite list_lookup_insert_ne by lia.
    rewrite lookup_app_r by (fold m; lia). fold m.
    by rewrite Nat.sub_diag. }
  assert (store w0 !! account = Some (AccountObj b)) as Ha0.
  { rewrite Hw0; simpl. rewrite list_lookup_insert_ne by (intros ->; congruence).
    by apply lookup_app_l_Some. }
  assert (store w1 !! c = Some (CaretakerObj account (history ++ [m]))) as Hc1
    by (by apply caretaker_mutate_all).
  assert (saved_at m w1 = Some b) as Hs1.
  { unfold w1. rewrite saved_at_mutate_all. by apply saved_at_Some. }
  destruct (account_mutate_all ms w0 account account b Ha0) as [b1 Ha1].
  fold w1 in Ha1.
  assert (w2 = World (<[account := AccountObj b]>
                        (<[c := CaretakerObj account history]> (store w1)))
                     (stdout w1)) as Hw2.
  { unfold w2, exec.
    by rewrite (undo_nonempty w1 c account history m b b1 Hc1
                  (proj1 (saved_at_Some _ _ _) Hs1) Ha1). }
  split; [lia|]. split; [|split; [done|split]].
  - unfold history_at. by rewrite Hc1.
  - unfold balance_at. rewrite Hw2; simpl.
    rewrite list_lookup_insert_eq; [done|].
    rewrite length_insert. by eapply lookup_lt_Some.
  - rewrite saved_at_mutate_all. apply saved_at_Some. rewrite Hw2; simpl.
    rewrite !list_lookup_insert_ne by lia. by apply saved_at_Some.
Qed.

Lemma snapshot_is_by_value_witness :
  saved_at 2
    (mutate_all 0 [Deposit 50; Withdraw 30; Withdraw 1000] after_first_save)
  = Some 100 ∧
  balance_at 0
    (exec (undo 1)
       (mutate_all 0 [Deposit 50; Withdraw 30; Withdraw 1000] after_first_save))
  = Some 100.
Proof.
  pose proof (snapshot_is_by_value after_first_deposit 1%nat 0%nat [] 100
                [Deposit 50; Withdraw 30; Withdraw 1000] [Deposit 7]
                eq_refl eq_refl) as H.
  split; [apply H|apply H].
Defined.

(** C10: [withdraw(amount)] on an account of balance [b] raises exactly
    when [amount > b], the exception being ValueError("Insufficient funds")
    and every object, the balance included, staying as it was; when
    [amount <= b], the full balance included, it returns normally and the
    balance becomes [b - amount]. *)
Theorem withdraw_raises_iff_overdrawn (w : world heap) self b amount :
  store w !! self = Some (AccountObj b) →
  ((∃ e, outcome (withdraw self amount) w = Raise e) ↔ amount > b) ∧
  (amount > b →
   withdraw self amount w = (Raise (ValueError "Insufficient funds"), w)) ∧
  (amount ≤ b →
   withdraw self amount w =
   (Ret VNone,
    World (<[self := AccountObj (b - amount)]> (store w)) (stdout w)) ∧
   balance_at self (exec (withdraw self amount) w) = Some (b - amount)).
Proof.
  intros Hb. split; [|split].
  - unfold outcome. split.
    + intros [e He]. destruct (decide (amount > b)) as [|Hle]; [done|].
      rewrite (withdraw_ok _ _ _ _ Hb) in He by lia. discriminate.
    + intros Hgt. rewrite (withdraw_refused _ _ _ _ Hb Hgt). eauto.
  - by apply withdraw_refused.
  - intros Hle. rewrite (withdraw_ok _ _ _ _ Hb Hle). split; [done|].
    unfold exec, balance_at. rewrite (withdraw_ok _ _ _ _ Hb Hle). simpl.
    rewrite list_lookup_insert_eq; [done|]. by eapply lookup_lt_Some.
Qed.

Lemma withdraw_raises_iff_overdrawn_witness :
  withdraw 0 101 after_first_deposit =
  (Raise (ValueError "Insufficient funds"), after_first_deposit) ∧
  balance_at 0 (exec (withdraw 0 100) after_first_deposit) = Some 0.
Proof.
  pose proof (withdraw_raises_iff_overdrawn after_first_deposit 0%nat 100 101
                eq_refl) as H1.
  pose proof (withdraw_raises_iff_overdrawn after_first_deposit 0%nat 100 100
                eq_refl) as H2.
  split.
  - apply H1. lia.
  - apply H2. lia.
Defined.

End MementoFacts.

(** ** The weather subject *)

Module ObserverFacts.
Import Observer PyFacts.

(** *** The registry *)

Lemma attach_eq (o : loc) (w : world Store) :
  attach o w =
  (Ret VNone,
   if bool_decide (o ∈ observers_of w) then w
   else with_observers (observers_of w ++ [o]) w).
Proof.
  unfold attach, mbind, M_bind, get, observers_of. simpl.
  by destruct (bool_decide _).
Qed.

Lemma detach_eq (o : loc) (w : world Store) :
  detach o w =
  (Ret VNone,
   if bool_decide (o ∈ observers_of w)
   then with_observers (remove_first o (observers_of w)) w
   else w).
Proof.
  unfold detach, mbind, M_bind, get, observers_of. simpl.
  by destruct (bool_decide _).
Qed.

(** Attaching an observer a second time changes nothing. *)
Lemma attach_idempotent (o : loc) (w : world Store) :
  exec (attach o) (exec (attach o) w) = exec (attach o) w.
Proof.
  unfold exec. rewrite !attach_eq. simpl.
  destruct (bool_decide (o ∈ observers_of w)) eqn:Hin.
  - by rewrite Hin.
  - rewrite bool_decide_true; [done|].
    unfold observers_of, with_observers. simpl. set_solver.
Qed.

Lemma observers_of_attach (o : loc) (w : world Store) :
  observers_of (exec (attach o) w) =
  if bool_decide (o ∈ observers_of w) then observers_of w
  else observers_of w ++ [o].
Proof. unfold exec. rewrite attach_eq. simpl. by destruct (bool_decide _). Qed.

Lemma remove_first_subseteq (o : loc) (l : list loc) : remove_first o l ⊆ l.
Proof.
  induction l as [|y l IH]; simpl; [done|].
  destruct (decide (y = o)) as [_|_]; intros x Hx; apply elem_of_cons.
  - by right.
  - apply elem_of_cons in Hx as [->|Hx]; [by left|]. right. by apply IH.
Qed.

Lemma remove_first_NoDup (o : loc) (l : list loc) :
  NoDup l → NoDup (remove_first o l).
Proof.
  induction 1 as [|y l Hy Hl IH]; simpl; [constructor|].
  destruct (decide (y = o)); [done|].
  constructor; [|done]. intros Hin. by apply Hy, (remove_first_subseteq o).
Qed.

(** The registry never holds an observer twice: true of a new subject
    and kept by [attach] and [detach]. *)
Lemma init_NoDup : NoDup (_observers WeatherData__init__).
Proof. constructor. Qed.

Lemma attach_NoDup (o : loc) (w : world Store) :
  NoDup (observers_of w) → NoDup (observers_of (exec (attach o) w)).
Proof.
  intros Hnd. rewrite observers_of_attach.
  destruct (bool_decide (o ∈ observers_of w)) eqn:Hin; [done|].
  apply bool_decide_eq_false in Hin.
  apply NoDup_app. split; [done|]. split; [|apply NoDup_singleton].
  intros x Hx ->%list_elem_of_singleton. done.
Qed.

Lemma detach_NoDup (o : loc) (w : world Store) :
  NoDup (observers_of w) → NoDup (observers_of (exec (detach o) w)).
Proof.
  intros Hnd. unfold exec. rewrite detach_eq. simpl.
  destruct (bool_decide _); [|done]. by apply remove_first_NoDup.
Qed.

Lemma filter_absent (o : loc) (l : list loc) :
  o ∉ l → filter (λ x, x = o) l = [].
Proof.
  induction l as [|y l IH]; intros Hnot; [done|].
  apply not_elem_of_cons in Hnot as [Hne Hnot].
  rewrite filter_cons_False by congruence. by apply IH.
Qed.

Lemma count_NoDup (o : loc) (l : list loc) :
  NoDup l → o ∈ l → length (filter (λ x, x = o) l) = 1%nat.
Proof.
  induction 1 as [|y l Hy Hl IH]; intros Hin; [by apply elem_of_nil in Hin|].
  destruct (decide (y = o)) as [->|Hne].
  - rewrite filter_cons_True by done. simpl. by rewrite filter_absent.
  - rewrite filter_cons_False by done. apply IH.
    apply elem_of_cons in Hin as [->|Hin]; done.
Qed.

(** *** Running the callbacks *)

Lemma extended_nil (w : world Store) : extended [] [] w = w.
Proof. destruct w as [[wd d] out]. unfold extended. simpl. by rewrite !app_nil_r. Qed.

Lemma extended_lines lines (w : world Store) :
  extended [] lines w = World (store w) (stdout w ++ lines).
Proof. destruct w as [[wd d] out]. unfold extended. simpl. by rewrite app_nil_r. Qed.

Lemma extended_extended c1 l1 c2 l2 (w : world Store) :
  extended c2 l2 (extended c1 l1 w) = extended (c1 ++ c2) (l1 ++ l2) w.
Proof. unfold extended. simpl. by rewrite !app_assoc. Qed.

Lemma run_body_prints (body : list action) (w : world Store) :
  prints_only body → run_body body w = (Ret VNone, extended [] (lines_of body) w).
Proof.
  revert w. induction body as [|a body IH]; intros w Hp.
  - simpl. by rewrite extended_nil.
  - apply Forall_cons in Hp as [Ha Hp]. destruct a as [line| | |]; try done.
    simpl. rewrite (bind_Ret _ _ w VNone (extended [] [line] w)) by
      (by rewrite extended_lines).
    rewrite IH by done. by rewrite extended_extended.
Qed.

(** One step of a body that does not raise: it returns, and touches
    neither the record of calls nor the temperature. *)
Lemma quiet_step (a : action) (rest : list action) (w : world Store) :
  quiet a →
  ∃ w1, run_body (a :: rest) w = run_body rest w1 ∧
        delivered (store w1) = delivered (store w) ∧
        temperature_of w1 = temperature_of w ∧
        (NoDup (observers_of w) → NoDup (observers_of w1)).
Proof.
  destruct a as [line|o|o|e]; intros Hq; [| | |done]; simpl.
  - exists (World (store w) (stdout w ++ [line])).
    by rewrite (bind_Ret (print line) _ w VNone _ eq_refl).
  - exists (exec (attach o) w). split; [|split; [|split]].
    + by rewrite (bind_Ret _ _ w VNone (exec (attach o) w))
        by (unfold exec; by rewrite attach_eq).
    + unfold exec. rewrite attach_eq. simpl. by destruct (bool_decide _).
    + unfold exec. rewrite attach_eq. simpl. by destruct (bool_decide _).
    + apply attach_NoDup.
  - exists (exec (detach o) w). split; [|split; [|split]].
    + by rewrite (bind_Ret _ _ w VNone (exec (detach o) w))
        by (unfold exec; by rewrite detach_eq).
    + unfold exec. rewrite detach_eq. simpl. by destruct (bool_decide _).
    + unfold exec. rewrite detach_eq. simpl. by destruct (bool_decide _).
    + apply detach_NoDup.
Qed.

Lemma run_body_frame (body : list action) :
  ∀ w : world Store,
    delivered (store (exec (run_body body) w)) = delivered (store w) ∧
    temperature_of (exec (run_body body) w) = temperature_of w ∧
    (NoDup (observers_of w) → NoDup (observers_of (exec (run_body body) w))).
Proof.
  induction body as [|a body IH]; intros w; [done|].
  assert (quiet a ∨ ∃ e, a = Throw e) as [Hq|[e ->]]
    by (destruct a; simpl; eauto).
  - destruct (quiet_step a body w Hq) as (w1 & Hrun & Hd & Ht & Hnd).
    unfold exec in *. rewrite Hrun. destruct (IH w1) as (IH1 & IH2 & IH3).
    rewrite IH1, IH2, Hd, Ht. auto.
  - done.
Qed.

Lemma run_body_throws (before : list action) e after :
  Forall quiet before →
  ∀ w : world Store, outcome (run_body (before ++ Throw e :: after)) w = Raise e.
Proof.
  induction 1 as [|a before Hq _ IH]; intros w; [done|].
  destruct (quiet_step a (before ++ Throw e :: after) w Hq) as (w1 & Hrun & _).
  unfold outcome in *. rewrite <-app_comm_cons, Hrun. apply IH.
Qed.

Lemma filter_calls (o : loc) (t : Z) (l : list loc) :
  length (filter (λ d : loc * Z, d.1 = o) ((λ p, (p, t)) <$> l)) =
  length (filter (λ x, x = o) l).
Proof.
  induction l as [|y l IH]; [done|]. rewrite fmap_cons.
  destruct (decide (y = o)) as [->|Hne].
  - rewrite !filter_cons_True by done. simpl. by rewrite IH.
  - by rewrite !filter_cons_False by done.
Qed.

Section Notify.
Variable update_body : loc → Z → list action.

Lemma set_temperature_eq (rounds : nat) (t : Z) (w : world Store) :
  set_temperature update_body rounds t w =
  notify update_body rounds (with_temperature t w).
Proof.
  unfold set_temperature. rewrite (bind_Ret _ _ w (store w) w) by done.
  by rewrite (bind_Ret _ _ w VNone (with_temperature t w)).
Qed.

Lemma update_eq (o : loc) (t : Z) (w : world Store) :
  update update_body o t w = run_body (update_body o t) (extended [(o, t)] [] w).
Proof.
  unfold update. rewrite (bind_Ret _ _ w (store w) w) by done.
  rewrite (bind_Ret _ _ w VNone (extended [(o, t)] [] w)); [done|].
  unfold put, extended. simpl. by rewrite app_nil_r.
Qed.

Lemma update_prints (o : loc) (t : Z) (w : world Store) :
  prints_only (update_body o t) →
  update update_body o t w =
  (Ret VNone, extended [(o, t)] (lines_of (update_body o t)) w).
Proof.
  intros Hp. rewrite update_eq, run_body_prints by done.
  by rewrite extended_extended.
Qed.

Lemma drop_cons_inv {A} (l : list A) i x rest :
  drop i l = x :: rest → l !! i = Some x ∧ drop (S i) l = rest.
Proof.
  intros Hd. split.
  - rewrite <-(Nat.add_0_r i), <-lookup_drop. by rewrite Hd.
  - change (S i) with (1 + i)%nat. rewrite Nat.add_comm, <-drop_drop.
    by rewrite Hd.
Qed.

Lemma notify_from_step (rounds i : nat) (w : world Store) o :
  observers_of w !! i = Some o →
  notify_from update_body (S rounds) i w =
  (update update_body o (temperature_of w)
     ≫= λ _, notify_from update_body rounds (S i)) w.
Proof.
  intros Ho. simpl. rewrite (bind_Ret _ _ w (store w) w) by done.
  unfold observers_of in Ho. by rewrite Ho.
Qed.

Lemma notify_from_end (rounds i : nat) (w : world Store) :
  observers_of w !! i = None →
  notify_from update_body (S rounds) i w = (Ret (Some VNone), w).
Proof.
  intros Ho. simpl. rewrite (bind_Ret _ _ w (store w) w) by done.
  unfold observers_of in Ho. by rewrite Ho.
Qed.

(** When the callbacks only print, the walk visits the rest of the
    registry, entry after entry. *)
Lemma notify_from_prints (rest : list loc) :
  ∀ (rounds i : nat) (w : world Store),
    drop i (observers_of w) = rest →
    (∀ o, o ∈ rest → prints_only (update_body o (temperature_of w))) →
    (length rest < rounds)%nat →
    notify_from update_body rounds i w =
    (Ret (Some VNone),
     extended ((λ o, (o, temperature_of w)) <$> rest)
              (concat ((λ o, lines_of (update_body o (temperature_of w))) <$> rest))
              w).
Proof.
  induction rest as [|o rest IH]; intros rounds i w Hd Hp Hr.
  - destruct rounds as [|rounds]; [simpl in Hr; lia|].
    rewrite notify_from_end; [by rewrite extended_nil|].
    rewrite <-(Nat.add_0_r i), <-lookup_drop. by rewrite Hd.
  - destruct rounds as [|rounds]; [simpl in Hr; lia|].
    apply drop_cons_inv in Hd as [Ho Hd].
    rewrite (notify_from_step _ _ _ _ Ho).
    erewrite bind_Ret; [|apply update_prints, Hp, elem_of_cons; by left].
    rewrite (IH rounds (S i)); simpl.
    + by rewrite extended_extended.
    + done.
    + intros o' Ho'. apply Hp, elem_of_cons. by right.
    + simpl in Hr. lia.
Qed.

(** When a callback raises, the walk ends there: the exception comes
    out of the loop and the rest of the registry is not visited. *)
Lemma notify_from_raises (pre : list loc) o post e before after :
  ∀ (rounds i : nat) (w : world Store),
    drop i (observers_of w) = pre ++ o :: post →
    (∀ p, p ∈ pre → prints_only (update_body p (temperature_of w))) →
    update_body o (temperature_of w) = before ++ Throw e :: after →
    Forall quiet before →
    (length pre < rounds)%nat →
    outcome (notify_from update_body rounds i) w = Raise e ∧
    delivered (store (exec (notify_from update_body rounds i) w)) =
      delivered (store w) ++ ((λ p, (p, temperature_of w)) <$> pre ++ [o]) ∧
    temperature_of (exec (notify_from update_body rounds i) w) = temperature_of w.
Proof.
  induction pre as [|p pre IH]; intros rounds i w Hd Hp Hb Hq Hr.
  - destruct rounds as [|rounds]; [simpl in Hr; lia|].
    apply drop_cons_inv in Hd as [Ho _].
    unfold outcome, exec. rewrite (notify_from_step _ _ _ _ Ho).
    set (w1 := extended [(o, temperature_of w)] [] w).
    pose proof (run_body_throws before e after Hq w1) as Hthrow.
    destruct (run_body_frame (before ++ Throw e :: after) w1) as (Hd1 & Ht1 & _).
    unfold outcome, exec in *.
    destruct (run_body (before ++ Throw e :: after) w1) as [r w2] eqn:Hrun.
    simpl in Hthrow, Hd1, Ht1. subst r.
    rewrite (bind_Raise _ _ w e w2) by (by rewrite update_eq, Hb).
    simpl. by rewrite Hd1, Ht1.
  - destruct rounds as [|rounds]; [simpl in Hr; lia|].
    apply drop_cons_inv in Hd as [Ho Hd].
    unfold outcome, exec. rewrite (notify_from_step _ _ _ _ Ho).
    assert (prints_only (update_body p (temperature_of w))) as Hpp
      by (apply Hp, elem_of_cons; by left).
    rewrite (bind_Ret _ _ _ _ _ (update_prints _ _ _ Hpp)).
    destruct (IH rounds (S i)
                (extended [(p, temperature_of w)]
                   (lines_of (update_body p (temperature_of w))) w))
      as (IH1 & IH2 & IH3); try done.
    + intros p' Hp'. apply Hp, elem_of_cons. by right.
    + simpl in Hr. lia.
    + unfold outcome, exec in IH1, IH2, IH3. split; [done|]. split; [|done].
      rewrite IH2. simpl. by rewrite <-app_assoc.
Qed.

(** The registry stays free of duplicates through a whole round of
    notifications, whatever the callbacks attach and detach. *)
Lemma notify_from_NoDup (rounds : nat) :
  ∀ (i : nat) (w : world Store),
    NoDup (observers_of w) →
    NoDup (observers_of (exec (notify_from update_body rounds i) w)).
Proof.
  induction rounds as [|rounds IH]; intros i w Hnd; [done|].
  destruct (observers_of w !! i) as [o|] eqn:Ho.
  - unfold exec. rewrite (notify_from_step _ _ _ _ Ho).
    unfold mbind, M_bind. rewrite update_eq.
    set (w1 := extended [(o, temperature_of w)] [] w).
    destruct (run_body_frame (update_body o (temperature_of w)) w1)
      as (_ & _ & Hnd1).
    unfold exec in Hnd1.
    destruct (run_body (update_body o (temperature_of w)) w1) as [[v|e] w2];
      simpl in *.
    + by apply IH, Hnd1.
    + by apply Hnd1.
  - unfold exec. by rewrite (notify_from_end _ _ _ Ho).
Qed.

End Notify.

(** *** The properties of [Observer.py] *)

(** C6, amended: attaching the same observer twice to a subject (whose
    registry, as always, holds nobody twice) is the same as attaching it
    once and leaves it registered exactly once; when no callback attaches,
    detaches or raises (the callbacks only print, as the displays of the
    file do), a following [set_temperature] calls its [update] exactly
    once. *)
Theorem attach_twice_registers_and_notifies_once
    (update_body : loc → Z → list action) (w : world Store) (o : loc)
    (t : Z) (rounds : nat) :
  NoDup (observers_of w) →
  (∀ o', o' ∈ o :: observers_of w → prints_only (update_body o' t)) →
  (S (length (observers_of w)) < rounds)%nat →
  let w2 := exec (attach o) (exec (attach o) w) in
  let w3 := exec (set_temperature update_body rounds t) w2 in
  w2 = exec (attach o) w ∧
  registrations o w2 = 1%nat ∧
  outcome (set_temperature update_body rounds t) w2 = Ret (Some VNone) ∧
  deliveries_to o w3 = S (deliveries_to o w2).
Proof.
  intros Hnd Hp Hr w2 w3. unfold w3, w2. clear w2 w3.
  rewrite attach_idempotent. split; [done|]. set (w1 := exec (attach o) w).
  assert (NoDup (observers_of w1)) as Hnd1 by (by apply attach_NoDup).
  assert (o ∈ observers_of w1 ∧ observers_of w1 ⊆ o :: observers_of w ∧
          (length (observers_of w1) ≤ S (length (observers_of w)))%nat)
    as (Hin & Hsub & Hlen).
  { unfold w1. rewrite observers_of_attach.
    destruct (bool_decide (o ∈ observers_of w)) eqn:Hd.
    - apply bool_decide_eq_true in Hd. split; [done|]. split; [|lia].
      intros x Hx. apply elem_of_cons. by right.
    - split; [apply elem_of_app; right; by apply list_elem_of_singleton|].
      split; [|rewrite length_app; simpl; lia].
      intros x [Hx| ->%list_elem_of_singleton]%elem_of_app;
        apply elem_of_cons; auto. }
  unfold outcome, exec. rewrite set_temperature_eq. unfold notify.
  rewrite (notify_from_prints update_body (observers_of w1) rounds 0
             (with_temperature t w1)); [|done| |lia].
  - split; [by apply count_NoDup|]. split; [done|].
    unfold deliveries_to. simpl. rewrite filter_app, length_app.
    rewrite filter_calls, count_NoDup by done. lia.
  - intros o' Ho'. by apply Hp, Hsub.
Qed.

Lemma attach_twice_registers_and_notifies_once_witness :
  registrations 0 (exec (attach 0) (exec (attach 0) (subject [1%nat] 0)))
  = 1%nat ∧
  deliveries_to 0
    (exec (set_temperature displays 5 25)
       (exec (attach 0) (exec (attach 0) (subject [1%nat] 0))))
  = 1%nat.
Proof.
  assert (NoDup (observers_of (subject [1%nat] 0))) as Hnd
    by (apply NoDup_singleton).
  assert (∀ o', o' ∈ 0%nat :: observers_of (subject [1%nat] 0) →
                prints_only (displays o' 25)) as Hp
    by (intros [|o'] _; repeat constructor).
  pose proof (attach_twice_registers_and_notifies_once
                displays (subject [1%nat] 0) 0%nat 25 5%nat Hnd Hp
                ltac:(simpl; lia)) as H.
  split; apply H.
Defined.

(** C6, as the specification states it, fails: the registration is
    single, but the number of notifications depends on what the other
    callbacks do.  With observer 0 registered and detaching itself in its
    callback, observer 1 attached twice is registered once and not called
    at all by the next [set_temperature]; with 0, 1 and 2 registered and
    observer 1 detaching and re-attaching observer 0, observer 0 attached
    twice is called twice. *)
Lemma attach_twice_delivery_depends_on_callbacks :
  registrations 1 (exec (attach 1) (exec (attach 1) (subject [0%nat] 25)))
  = 1%nat ∧
  outcome (set_temperature one_shot 5 30)
    (exec (attach 1) (exec (attach 1) (subject [0%nat] 25)))
  = Ret (Some VNone) ∧
  deliveries_to 1
    (exec (set_temperature one_shot 5 30)
       (exec (attach 1) (exec (attach 1) (subject [0%nat] 25))))
  = 0%nat ∧
  deliveries_to 0
    (exec (set_temperature reattaching 5 30)
       (exec (attach 0) (exec (attach 0) (subject [0%nat; 1%nat; 2%nat] 25))))
  = 2%nat ∧
  ¬ (∀ update_body (w : world Store) (o : loc) (t : Z) (rounds : nat),
       NoDup (observers_of w) →
       (S (length (observers_of w)) < rounds)%nat →
       deliveries_to o
         (exec (set_temperature update_body rounds t)
            (exec (attach o) (exec (attach o) w)))
       = S (deliveries_to o (exec (attach o) (exec (attach o) w)))).
Proof.
  split; [reflexivity|]. split; [reflexivity|]. split; [reflexivity|].
  split; [reflexivity|]. intros H.
  specialize (H one_shot (subject [0%nat] 25) 1%nat 30 5%nat
                (NoDup_singleton _) ltac:(simpl; lia)).
  vm_compute in H. discriminate.
Qed.

(** C7, as the specification states it, fails: [notify] walks the live
    registry.  With observers 0 and 1 registered, observer 0 detaching
    itself in its callback makes the walk end without calling observer 1;
    with 0, 1 and 2 registered, observer 1 detaching and re-attaching
    observer 0 has observer 0 called twice and observer 2 not at all. *)
Lemma notify_walks_the_live_registry :
  observers_of (subject [0%nat; 1%nat] 25) = [0%nat; 1%nat] ∧
  outcome (notify one_shot 3) (subject [0%nat; 1%nat] 25) = Ret (Some VNone) ∧
  notified (exec (notify one_shot 3) (subject [0%nat; 1%nat] 25)) = [0%nat] ∧
  notified (exec (notify reattaching 4) (subject [0%nat; 1%nat; 2%nat] 25))
  = [0%nat; 1%nat; 0%nat] ∧
  ¬ (∀ update_body (w : world Store) rounds,
       outcome (notify update_body rounds) w = Ret (Some VNone) →
       notified (exec (notify update_body rounds) w)
       = notified w ++ observers_of w).
Proof.
  split; [reflexivity|]. split; [reflexivity|]. split; [reflexivity|].
  split; [reflexivity|]. intros H.
  specialize (H one_shot (subject [0%nat; 1%nat] 25) 3%nat eq_refl).
  vm_compute in H. discriminate.
Qed.

(** C7, amended: when no callback attaches, detaches or raises (the
    callbacks only print, as the displays of the file do), an invocation of
    [notify] returns and has called [update] of exactly the observers
    registered when it was invoked, once each, in insertion order, with the
    current temperature; the registry is as it was. *)
Theorem notify_delivers_in_insertion_order
    (update_body : loc → Z → list action) (w : world Store) (rounds : nat) :
  (∀ o, o ∈ observers_of w → prints_only (update_body o (temperature_of w))) →
  (length (observers_of w) < rounds)%nat →
  let w' := exec (notify update_body rounds) w in
  outcome (notify update_body rounds) w = Ret (Some VNone) ∧
  delivered (store w') =
    delivered (store w) ++ ((λ o, (o, temperature_of w)) <$> observers_of w) ∧
  observers_of w' = observers_of w.
Proof.
  intros Hp Hr w'. unfold w', outcome, exec, notify.
  by rewrite (notify_from_prints update_body (observers_of w) rounds 0 w).
Qed.

Lemma notify_delivers_in_insertion_order_witness :
  notified (exec (notify displays 3) (subject [0%nat; 1%nat] 25))
  = [0%nat; 1%nat] ∧
  stdout (exec (notify displays 3) (subject [0%nat; 1%nat] 25))
  = ["Temperature Display: Current temperature is 25°C";
     "Humidity Display: Current humidity is 75%"].
Proof.
  assert (∀ o, o ∈ observers_of (subject [0%nat; 1%nat] 25) →
               prints_only (displays o (temperature_of (subject [0%nat; 1%nat] 25))))
    as Hp by (intros [|o] _; repeat constructor).
  pose proof (notify_delivers_in_insertion_order displays
                (subject [0%nat; 1%nat] 25) 3%nat Hp ltac:(simpl; lia)) as H.
  split; [|reflexivity].
  unfold notified. by rewrite (proj1 (proj2 H)).
Defined.

(** C8, as the specification states it, fails: with observers 0 and 1
    registered and the callback of observer 0 raising, the exception comes
    out of [set_temperature] and observer 1 is never called. *)
Lemma observer_error_escapes :
  outcome (set_temperature failing 3 30) (subject [0%nat; 1%nat] 0)
  = Raise (RuntimeError "display broken") ∧
  notified (exec (set_temperature failing 3 30) (subject [0%nat; 1%nat] 0))
  = [0%nat] ∧
  ¬ (∀ update_body (w : world Store) rounds t,
       (length (observers_of w) < rounds)%nat →
       ∃ v, outcome (set_temperature update_body rounds t) w = Ret v).
Proof.
  split; [reflexivity|]. split; [reflexivity|]. intros H.
  destruct (H failing (subject [0%nat; 1%nat] 0) 3%nat 30 ltac:(simpl; lia))
    as [v Hv].
  vm_compute in Hv. discriminate.
Qed.

(** C8, amended: if the observers before [o] in the registry only print
    and the callback of [o] raises [e], then [set_temperature], having
    stored the new temperature, ends with [e] raised to its caller; the
    observers up to and including [o] have been called, in order, and none
    of those after [o]. *)
Theorem raising_observer_ends_the_round
    (update_body : loc → Z → list action) (w : world Store) (t : Z)
    (pre : list loc) (o : loc) (post : list loc) (e : exn)
    (before after : list action) (rounds : nat) :
  observers_of w = pre ++ o :: post →
  (∀ p, p ∈ pre → prints_only (update_body p t)) →
  update_body o t = before ++ Throw e :: after →
  Forall quiet before →
  (length pre < rounds)%nat →
  let w' := exec (set_temperature update_body rounds t) w in
  outcome (set_temperature update_body rounds t) w = Raise e ∧
  temperature_of w' = t ∧
  delivered (store w') = delivered (store w) ++ ((λ p, (p, t)) <$> pre ++ [o]).
Proof.
  intros Hobs Hp Hb Hq Hr w'. unfold w', outcome, exec.
  rewrite set_temperature_eq. unfold notify.
  destruct (notify_from_raises update_body pre o post e before after rounds 0
              (with_temperature t w)) as (H1 & H2 & H3); try done.
Qed.

Lemma raising_observer_ends_the_round_witness :
  outcome (set_temperature failing 5 30) (subject [1%nat; 0%nat; 2%nat] 0)
  = Raise (RuntimeError "display broken") ∧
  notified (exec (set_temperature failing 5 30)
              (subject [1%nat; 0%nat; 2%nat] 0))
  = [1%nat; 0%nat].
Proof.
  assert (∀ p, p ∈ [1%nat] → prints_only (failing p 30)) as Hp
    by (intros p ->%list_elem_of_singleton; repeat constructor).
  pose proof (raising_observer_ends_the_round failing
                (subject [1%nat; 0%nat; 2%nat] 0) 30
                [1%nat] 0%nat [2%nat] (RuntimeError "display broken") [] []
                5%nat eq_refl Hp eq_refl (Forall_nil_2 _) ltac:(simpl; lia))
    as H.
  split; [apply H|].
  unfold notified. by rewrite (proj2 (proj2 H)).
Defined.

End ObserverFacts.

(** ** Expected conditions across the kernel *)

Module KernelFacts.
Import PyFacts.

(** C9, as the specification states it, fails in its second half: a
    request the table accepts and one it rejects both return [None], so the
    returned value does not signal the illegal request. *)
Lemma refusal_not_signalled_by_return_value :
  outcome (State.send State.fill) State.fresh = Ret VNone ∧
  outcome (State.send State.fill) (State.order_in State.CancelledOrderState)
  = Ret VNone ∧
  ¬ ∃ IllegalTransition : result value → Prop,
      ∀ (w : world State.Order) (e : State.Event),
        IllegalTransition (outcome (State.send e) w) ↔
        ∃ r, State.TransitionTable (State.currentTag w) e = State.Rejected r.
Proof.
  split; [reflexivity|]. split; [reflexivity|]. intros [P H].
  pose proof (H State.fresh State.fill) as H1.
  pose proof (H (State.order_in State.CancelledOrderState) State.fill) as H2.
  rewrite StateFacts.send_returns_None in H1, H2.
  destruct (proj1 H1 (proj2 H2 (ex_intro _ State.TerminalState eq_refl)))
    as [r Hr].
  discriminate.
Qed.

(** C9, amended: no request to an order, legal or not, raises, and
    neither does [undo] on a caretaker with an empty history; each returns
    [None], as it does when the request is carried out, and the condition is
    reported by a line on the console. *)
Theorem expected_conditions_never_raise :
  (∀ (w : world State.Order) (e : State.Event),
     outcome (State.send e) w = Ret VNone ∧
     ∀ r, State.TransitionTable (State.currentTag w) e = State.Rejected r →
          stdout (exec (State.send e) w) =
          stdout w ++ [State.refusal_line (State._state (store w)) e]) ∧
  (∀ (w : world (list Memento.obj)) (c account : loc),
     store w !! c = Some (Memento.CaretakerObj account []) →
     outcome (Memento.undo c) w = Ret VNone ∧
     stdout (exec (Memento.undo c) w) = stdout w ++ ["No states to restore"]).
Proof.
  split.
  - intros w e. split; [apply StateFacts.send_returns_None|].
    intros r Hr. destruct w as [[s] out]. unfold exec.
    rewrite StateFacts.send_unfold. simpl.
    unfold State.currentTag in Hr. simpl in Hr. by destruct s, e.
  - intros w c account Hc. unfold outcome, exec.
    by rewrite (MementoFacts.undo_empty _ _ _ Hc).
Qed.

Lemma expected_conditions_never_raise_witness :
  stdout (exec (State.send State.cancel_ev)
            (State.order_in State.CancelledOrderState))
  = ["Order already cancelled."] ∧
  outcome (Memento.undo 1) Memento.after_first_deposit = Ret VNone.
Proof.
  split.
  - apply (proj2 (proj1 expected_conditions_never_raise
                    (State.order_in State.CancelledOrderState)
                    State.cancel_ev) State.TerminalState eq_refl).
  - apply (proj1 (proj2 expected_conditions_never_raise
                    Memento.after_first_deposit 1%nat 0%nat eq_refl)).
Defined.

End KernelFacts.

(** * Further properties *)

(** ** The order life cycle, continued *)

Module StateMore.
Import State StateFacts.

Lemma state_send (w : world Order) (e : Event) :
  _state (store (exec (send e) w)) =
  match _state (store w), e with
  | NewOrderState, fill => FilledOrderState
  | FilledOrderState, fill => FilledOrderState
  | _, _ => CancelledOrderState
  end.
Proof.
  destruct w as [[s] out]. unfold exec. rewrite send_unfold.
  by destruct s, e.
Qed.

Lemma send_all_cons (e : Event) (evs : list Event) (w : world Order) :
  send_all (e :: evs) w = send_all evs (exec (send e) w).
Proof. reflexivity. Qed.

Lemma send_all_app (evs1 evs2 : list Event) (w : world Order) :
  send_all (evs1 ++ evs2) w = send_all evs2 (send_all evs1 w).
Proof. unfold send_all. apply foldl_app. Qed.

Lemma cancelled_stays (evs : list Event) :
  ∀ w : world Order,
    _state (store w) = CancelledOrderState →
    _state (store (send_all evs w)) = CancelledOrderState.
Proof.
  induction evs as [|e evs IH]; intros w Hw; [done|].
  rewrite send_all_cons. apply IH. rewrite state_send, Hw. by destruct e.
Qed.

Lemma only_fills (evs : list Event) :
  ∀ w : world Order,
    cancel_ev ∉ evs →
    _state (store (send_all evs w)) =
    match evs, _state (store w) with
    | _ :: _, NewOrderState => FilledOrderState
    | _, s => s
    end.
Proof.
  induction evs as [|e evs IH]; intros w Hno.
  - simpl. by destruct (_state (store w)).
  - apply not_elem_of_cons in Hno as [He Hno].
    rewrite send_all_cons, (IH _ Hno), state_send.
    destruct e; [|done]. destruct evs, (_state (store w)); done.
Qed.

(** X1: the cancelled state is final: whatever requests a cancelled
    order receives, in whatever number, it stays cancelled. *)
Theorem cancelled_is_final (evs : list Event) (w : world Order) :
  _state (store w) = CancelledOrderState →
  _state (store (send_all evs w)) = CancelledOrderState.
Proof. apply cancelled_stays. Qed.

Lemma cancelled_is_final_witness :
  _state (store (send_all [fill; cancel_ev; fill; fill]
                   (order_in CancelledOrderState)))
  = CancelledOrderState.
Proof.
  apply (cancelled_is_final [fill; cancel_ev; fill; fill]
           (order_in CancelledOrderState) eq_refl).
Defined.

(** X2: cancelling works from every state and is for good: an order
    that has received a cancel request anywhere in a sequence of requests
    is cancelled at the end of the sequence, whatever state it started in
    and whatever came before or after. *)
Theorem cancel_anywhere_cancels (evs : list Event) (w : world Order) :
  cancel_ev ∈ evs →
  _state (store (send_all evs w)) = CancelledOrderState.
Proof.
  intros (evs1 & evs2 & ->)%list_elem_of_split.
  rewrite send_all_app, send_all_cons. apply cancelled_stays.
  rewrite state_send. by destruct (_state (store (send_all evs1 w))).
Qed.

Lemma cancel_anywhere_cancels_witness :
  _state (store (send_all [fill; cancel_ev; fill] fresh))
  = CancelledOrderState.
Proof.
  apply (cancel_anywhere_cancels [fill; cancel_ev; fill] fresh).
  apply elem_of_cons. right. apply elem_of_cons. by left.
Defined.

(** X3: the state of a new order after any sequence of requests, in
    closed form: cancelled if the sequence contains a cancel request;
    otherwise filled if it contains any request at all; otherwise still
    new.  In particular no sequence of requests takes an order back to the
    new state, or from cancelled to filled. *)
Theorem state_of_new_order (evs : list Event) :
  _state (store (send_all evs fresh)) =
  if bool_decide (cancel_ev ∈ evs) then CancelledOrderState
  else match evs with
       | [] => NewOrderState
       | _ :: _ => FilledOrderState
       end.
Proof.
  destruct (bool_decide (cancel_ev ∈ evs)) eqn:Hc.
  - apply bool_decide_eq_true in Hc.
    destruct (list_elem_of_split _ _ Hc) as (evs1 & evs2 & ->).
    rewrite send_all_app, send_all_cons. apply cancelled_stays.
    rewrite state_send. by destruct (_state (store (send_all evs1 fresh))).
  - apply bool_decide_eq_false in Hc. rewrite (only_fills _ _ Hc).
    by destruct evs.
Qed.

(** X4: every request, carried out or turned down, prints exactly one
    line and leaves the earlier console output in place: after a sequence
    of requests the console is the old console followed by as many new
    lines as there were requests. *)
Theorem one_line_per_request (evs : list Event) (w : world Order) :
  ∃ lines, stdout (send_all evs w) = stdout w ++ lines ∧
           length lines = length evs.
Proof.
  revert w. induction evs as [|e evs IH]; intros w.
  - exists []. by rewrite app_nil_r.
  - rewrite send_all_cons. destruct (IH (exec (send e) w)) as (lines & Hl & Hn).
    destruct w as [[s] out]. unfold exec in *. rewrite send_unfold in *.
    simpl in *. eexists (_ :: lines). rewrite Hl, <-app_assoc. simpl.
    split; [reflexivity|]. by rewrite Hn.
Qed.

End StateMore.

(** ** Snapshots and undo, continued *)

Module MementoMore.
Import Memento PyFacts MementoFacts.

(** *** What [save] and [undo] write *)

Lemma get_saved_state_cases (w : world heap) self :
  (∃ v, store w !! self = Some (MementoObj v)) ∨
  get_saved_state self w = (Raise AttributeError, w).
Proof.
  unfold get_saved_state, mbind, M_bind, get.
  destruct (store w !! self) as [[| |]|]; eauto.
Qed.

Lemma save_cases (w : world heap) c :
  exec (save c) w = w ∨
  ∃ account history b,
    store w !! c = Some (CaretakerObj account history) ∧
    store w !! account = Some (AccountObj b) ∧
    exec (save c) w =
    World (<[c := CaretakerObj account (history ++ [length (store w)])]>
             (store w ++ [MementoObj b]))
          (stdout w).
Proof.
  destruct (store w !! c) as [[| |account history]|] eqn:Hc;
    try (left; unfold exec, save, Caretaker_fields, mbind, M_bind, get;
         simpl; by rewrite Hc).
  destruct (Account_balance_cases w account) as [[b Hb]|Hno].
  - right. exists account, history, b. split; [done|]. split; [done|].
    unfold exec. by rewrite (save_ok _ _ _ _ _ Hc Hb).
  - left. unfold exec, save.
    rewrite (bind_Ret _ _ _ _ _ (Caretaker_fields_ok _ _ _ _ Hc)).
    unfold save_state.
    by rewrite (bind_Raise _ _ w AttributeError w)
      by (by rewrite (bind_Raise _ _ _ _ _ Hno)).
Qed.

Lemma undo_cases (w : world heap) c :
  exec (undo c) w = w ∨
  (∃ account,
     store w !! c = Some (CaretakerObj account []) ∧
     exec (undo c) w = World (store w) (stdout w ++ ["No states to restore"])) ∨
  (∃ account before m,
     store w !! c = Some (CaretakerObj account (before ++ [m])) ∧
     (exec (undo c) w =
      World (<[c := CaretakerObj account before]> (store w)) (stdout w) ∨
      ∃ b v,
        store w !! account = Some (AccountObj b) ∧
        store w !! m = Some (MementoObj v) ∧
        exec (undo c) w =
        World (<[account := AccountObj v]>
                 (<[c := CaretakerObj account before]> (store w)))
              (stdout w))).
Proof.
  destruct (store w !! c) as [[| |account history]|] eqn:Hc;
    try (left; unfold exec, undo, Caretaker_fields, mbind, M_bind, get;
         simpl; by rewrite Hc).
  right. destruct history as [|m before _] using rev_ind.
  - left. exists account. split; [done|].
    unfold exec. by rewrite (undo_empty _ _ _ Hc).
  - right. exists account, before, m. split; [done|].
    set (w1 := World (<[c := CaretakerObj account before]> (store w)) (stdout w)).
    assert (store w1 !! c = Some (CaretakerObj account before)) as Hc1.
    { simpl. apply list_lookup_insert_eq. by eapply lookup_lt_Some. }
    assert (exec (undo c) w = exec (restore_state account m) w1) as Hundo.
    { unfold exec, undo.
      rewrite (bind_Ret _ _ _ _ _ (Caretaker_fields_ok _ _ _ _ Hc)), pop_snoc.
      rewrite (bind_Ret _ _ w VNone w1) by reflexivity.
      unfold mbind, M_bind. by destruct (restore_state account m w1) as [[|] ?]. }
    rewrite Hundo.
    destruct (Account_balance_cases w1 account) as [[b Hb]|Hno].
    + destruct (get_saved_state_cases w1 m) as [[v Hv]|Hno].
      * right. exists b, v.
        assert (account ≠ c) as Hac by (intros ->; congruence).
        assert (m ≠ c) as Hmc by (intros ->; congruence).
        simpl in Hb, Hv.
        rewrite list_lookup_insert_ne in Hb by done.
        rewrite list_lookup_insert_ne in Hv by done.
        split; [done|]. split; [done|].
        rewrite <-Hundo. unfold exec.
        by rewrite (undo_nonempty _ _ _ _ _ _ _ Hc Hv Hb).
      * left. unfold exec, restore_state.
        rewrite (bind_Ret _ _ _ _ _ (Account_balance_ok _ _ _ Hb)).
        by rewrite (bind_Raise _ _ _ _ _ Hno).
    + left. unfold exec, restore_state. by rewrite (bind_Raise _ _ _ _ _ Hno).
Qed.

Lemma saved_at_save (w : world heap) c x v :
  saved_at x w = Some v → saved_at x (exec (save c) w) = Some v.
Proof.
  intros Hx. apply saved_at_Some in Hx.
  destruct (save_cases w c) as [->|(account & history & b & Hc & Ha & ->)];
    [by apply saved_at_Some|].
  apply saved_at_Some. simpl.
  rewrite list_lookup_insert_ne by (intros ->; congruence).
  by apply lookup_app_l_Some.
Qed.

Lemma saved_at_undo (w : world heap) c x v :
  saved_at x w = Some v → saved_at x (exec (undo c) w) = Some v.
Proof.
  intros Hx. apply saved_at_Some in Hx.
  destruct (undo_cases w c)
    as [->|[(account & Hc & ->)|(account & before & m & Hc & [->|(b & v' & Ha & Hm & ->)])]];
    apply saved_at_Some; simpl; try done.
  - by rewrite list_lookup_insert_ne by (intros ->; congruence).
  - by rewrite !list_lookup_insert_ne by (intros ->; congruence).
Qed.

Lemma caretaker_save (w : world heap) c c' a h :
  c' ≠ c → store w !! c' = Some (CaretakerObj a h) →
  store (exec (save c) w) !! c' = Some (CaretakerObj a h).
Proof.
  intros Hne Hc'.
  destruct (save_cases w c) as [->|(account & history & b & Hc & Ha & ->)];
    [done|].
  simpl. rewrite list_lookup_insert_ne by done. by apply lookup_app_l_Some.
Qed.

Lemma caretaker_undo (w : world heap) c c' a h :
  c' ≠ c → store w !! c' = Some (CaretakerObj a h) →
  store (exec (undo c) w) !! c' = Some (CaretakerObj a h).
Proof.
  intros Hne Hc'.
  destruct (undo_cases w c)
    as [->|[(account & Hc & ->)|(account & before & m & Hc & [->|(b & v' & Ha & Hm & ->)])]];
    simpl; try done.
  - by rewrite list_lookup_insert_ne by done.
  - rewrite list_lookup_insert_ne by (intros ->; congruence).
    by rewrite list_lookup_insert_ne by done.
Qed.

(** *** The extra properties of [Memento.py] *)

(** X5: saving and undoing at once is a round trip: the account, the
    caretaker and every other object are as before the save, the console is
    untouched, and the only trace is the memento object that was created. *)
Theorem save_then_undo (w : world heap) c account history b :
  store w !! c = Some (CaretakerObj account history) →
  store w !! account = Some (AccountObj b) →
  exec (undo c) (exec (save c) w) =
  World (store w ++ [MementoObj b]) (stdout w).
Proof.
  intros Hc Ha. unfold exec at 2. rewrite (save_ok _ _ _ _ _ Hc Ha). simpl.
  assert (c < length (store w))%nat as Hlc by (by eapply lookup_lt_Some).
  assert (c ≠ account) as Hne by (intros ->; congruence).
  unfold exec.
  rewrite (undo_nonempty _ c account history (length (store w)) b b); simpl.
  - rewrite list_insert_insert_eq.
    rewrite (list_insert_id (store w ++ [MementoObj b]) c)
      by (by apply lookup_app_l_Some).
    by rewrite list_insert_id by (by apply lookup_app_l_Some).
  - apply list_lookup_insert_eq. rewrite length_app. lia.
  - rewrite list_lookup_insert_ne by lia.
    rewrite lookup_app_r by lia. by rewrite Nat.sub_diag.
  - rewrite list_lookup_insert_ne by done. by apply lookup_app_l_Some.
Qed.

Lemma save_then_undo_witness :
  exec (undo 1) (exec (save 1) after_first_deposit) =
  World [AccountObj 100; CaretakerObj 0 []; MementoObj 100] [].
Proof.
  apply (save_then_undo after_first_deposit 1%nat 0%nat [] 100 eq_refl eq_refl).
Defined.

(** One operation of the client keeps the objects in step with the ledger. *)
Lemma tracks_step (a c : loc) (w : world heap) (l : Z * list Z) (o : op) :
  tracks a c w l → tracks a c (exec (step a c o) w) (ledger_step l o).
Proof.
  destruct l as [b saved]. intros ([h Hc] & Hb & Hs). simpl in Hb, Hs.
  assert (store w !! a = Some (AccountObj b)) as Ha.
  { unfold balance_at in Hb. destruct (store w !! a) as [[| |]|]; naive_solver. }
  assert (Forall2 (λ m v, store w !! m = Some (MementoObj v)) h saved) as Hf.
  { unfold snapshots, history_at in Hs. rewrite Hc in Hs. simpl in Hs.
    apply mapM_Some in Hs. eapply Forall2_impl; [done|].
    intros m v. apply saved_at_Some. }
  assert (a ≠ c) as Hac by (intros ->; congruence).
  assert (a < length (store w))%nat as Hla by (by eapply lookup_lt_Some).
  assert (c < length (store w))%nat as Hlc by (by eapply lookup_lt_Some).
  assert (∀ (w' : world heap) h' saved',
            store w' !! c = Some (CaretakerObj a h') →
            Forall2 (λ m v, store w' !! m = Some (MementoObj v)) h' saved' →
            snapshots c w' = Some saved') as Hsnap.
  { intros w' h' saved' Hc' Hf'. unfold snapshots, history_at.
    rewrite Hc'. simpl. apply mapM_Some. eapply Forall2_impl; [done|].
    intros m v. apply saved_at_Some. }
  assert (∀ (w' : world heap) b',
            store w' !! a = Some (AccountObj b') → balance_at a w' = Some b')
    as Hbal by (intros w' b' Hb'; unfold balance_at; by rewrite Hb').
  destruct o as [[amount|amount]| |]; simpl.
  - unfold exec. rewrite (deposit_ok _ _ _ _ Ha). simpl.
    split; [|split].
    + exists h. simpl. by rewrite list_lookup_insert_ne.
    + apply Hbal. simpl. by apply list_lookup_insert_eq.
    + apply (Hsnap _ h); simpl; [by rewrite list_lookup_insert_ne|].
      eapply Forall2_impl; [done|]. intros m v Hm. simpl in Hm.
      by rewrite list_lookup_insert_ne by (intros ->; congruence).
  - unfold exec. destruct (decide (amount > b)) as [Hgt|Hle].
    + rewrite (withdraw_refused _ _ _ _ Ha Hgt), bool_decide_true by done.
      simpl. split; [eauto|]. split; [by apply Hbal|by apply (Hsnap _ h)].
    + rewrite (withdraw_ok _ _ _ _ Ha) by lia.
      rewrite bool_decide_false by done. simpl. split; [|split].
      * exists h. simpl. by rewrite list_lookup_insert_ne.
      * apply Hbal. simpl. by apply list_lookup_insert_eq.
      * apply (Hsnap _ h); simpl; [by rewrite list_lookup_insert_ne|].
        eapply Forall2_impl; [done|]. intros m v Hm. simpl in Hm.
        by rewrite list_lookup_insert_ne by (intros ->; congruence).
  - unfold exec. rewrite (save_ok _ _ _ _ _ Hc Ha). simpl.
    assert ((<[c := CaretakerObj a (h ++ [length (store w)])]>
               (store w ++ [MementoObj b])) !! c
            = Some (CaretakerObj a (h ++ [length (store w)]))) as Hc'.
    { apply list_lookup_insert_eq. rewrite length_app. lia. }
    split; [|split].
    + eauto.
    + apply Hbal. simpl. rewrite list_lookup_insert_ne by done.
      by apply lookup_app_l_Some.
    + apply (Hsnap _ (h ++ [length (store w)])); simpl; [done|].
      apply Forall2_app.
      * eapply Forall2_impl; [done|]. intros m v Hm. simpl in Hm.
        rewrite list_lookup_insert_ne by (intros ->; congruence).
        by apply lookup_app_l_Some.
      * constructor; [|constructor].
        rewrite list_lookup_insert_ne by lia.
        rewrite lookup_app_r by lia. by rewrite Nat.sub_diag.
  - unfold exec. destruct saved as [|v older _] using rev_ind.
    + apply Forall2_nil_inv_r in Hf as ->.
      rewrite (undo_empty _ _ _ Hc). simpl.
      split; [eauto|]. split; [by apply Hbal|by apply (Hsnap _ [])].
    + apply Forall2_app_inv_r in Hf as (before & ms & Hbefore & Hlast & ->).
      apply Forall2_cons_inv_r in Hlast as (m & ms' & Hm & Hnil & ->).
      apply Forall2_nil_inv_r in Hnil as ->.
      rewrite (undo_nonempty _ _ _ _ _ _ _ Hc Hm Ha), pop_snoc. simpl.
      split; [|split].
      * exists before. simpl. rewrite list_lookup_insert_ne by done.
        by apply list_lookup_insert_eq.
      * apply Hbal. simpl. apply list_lookup_insert_eq.
        by rewrite length_insert.
      * apply (Hsnap _ before); simpl.
        -- rewrite list_lookup_insert_ne by done.
           by apply list_lookup_insert_eq.
        -- eapply Forall2_impl; [done|]. intros m' v' Hm'. simpl in Hm'.
           by rewrite !list_lookup_insert_ne by (intros ->; congruence).
Qed.

(** X6: an account with its caretaker behaves as a balance with a stack
    of saved balances: through any sequence of deposits, withdrawals, saves
    and undos, the balance and the values held by the history's mementos
    are those of the ledger (deposit adds; withdraw subtracts unless the
    amount exceeds the balance; save pushes the balance; undo pops the last
    saved balance into the balance, or does nothing on an empty stack).  So
    undo is last-in-first-out and drops no earlier snapshot. *)
Theorem caretaker_is_a_stack (a c : loc) (ops : list op) (w : world heap)
    (l : Z * list Z) :
  tracks a c w l → tracks a c (run a c ops w) (foldl ledger_step l ops).
Proof.
  revert w l. induction ops as [|o ops IH]; intros w l Ht; [done|].
  unfold run in *. simpl. by apply IH, tracks_step.
Qed.

Lemma caretaker_is_a_stack_witness :
  tracks 0 1
    (run 0 1 [Save; Mutate (Deposit 50); Save; Mutate (Withdraw 1000);
              Mutate (Withdraw 30); Undo; Undo; Undo]
       after_first_deposit)
    (100, []).
Proof.
  apply (caretaker_is_a_stack 0%nat 1%nat
           [Save; Mutate (Deposit 50); Save; Mutate (Withdraw 1000);
            Mutate (Withdraw 30); Undo; Undo; Undo]
           after_first_deposit (100, [])).
  split; [by exists []|]. split; reflexivity.
Defined.

(** X7: no operation ever changes a memento: whatever deposits,
    withdrawals, saves and undos are issued, through whatever account and
    caretaker, a memento that holds a value holds the same value afterwards. *)
Theorem mementos_are_immutable (a c : loc) (ops : list op) (w : world heap)
    (m : loc) (v : Z) :
  saved_at m w = Some v → saved_at m (run a c ops w) = Some v.
Proof.
  revert w. induction ops as [|o ops IH]; intros w Hm; [done|].
  unfold run in *. simpl. apply IH. destruct o as [mu| |]; simpl.
  - by rewrite saved_at_mutate.
  - by apply saved_at_save.
  - by apply saved_at_undo.
Qed.

Lemma mementos_are_immutable_witness :
  saved_at 2
    (run 0 1 [Mutate (Deposit 5); Save; Undo; Undo; Undo; Mutate (Withdraw 7)]
       after_first_save)
  = Some 100.
Proof.
  apply (mementos_are_immutable 0%nat 1%nat
           [Mutate (Deposit 5); Save; Undo; Undo; Undo; Mutate (Withdraw 7)]
           after_first_save 2%nat 100 eq_refl).
Defined.

(** X8: for integer balances and amounts, a deposit followed by a
    withdrawal of the same amount is a round trip exactly when the balance
    was not negative: then the withdrawal succeeds and the world is as
    before the deposit; on a negative balance the withdrawal is refused
    with "Insufficient funds". *)
Theorem deposit_then_withdraw (w : world heap) a b amount :
  store w !! a = Some (AccountObj b) →
  (0 ≤ b → withdraw a amount (exec (deposit a amount) w) = (Ret VNone, w)) ∧
  (b < 0 →
   outcome (withdraw a amount) (exec (deposit a amount) w) =
   Raise (ValueError "Insufficient funds")).
Proof.
  intros Ha. unfold exec, outcome. rewrite (deposit_ok _ _ _ _ Ha). simpl.
  set (w1 := World (<[a := AccountObj (b + amount)]> (store w)) (stdout w)).
  assert (store w1 !! a = Some (AccountObj (b + amount))) as Ha1.
  { simpl. apply list_lookup_insert_eq. by eapply lookup_lt_Some. }
  split; intros Hb.
  - rewrite (withdraw_ok _ _ _ _ Ha1) by lia. simpl.
    rewrite list_insert_insert_eq.
    replace (b + amount - amount) with b by lia.
    rewrite list_insert_id by done. by destruct w.
  - by rewrite (withdraw_refused _ _ _ _ Ha1) by lia.
Qed.

Lemma deposit_then_withdraw_witness :
  withdraw 0 40 (exec (deposit 0 40) after_first_deposit)
  = (Ret VNone, after_first_deposit).
Proof.
  apply (proj1 (deposit_then_withdraw after_first_deposit 0%nat 100 40 eq_refl)).
  lia.
Defined.

(** X9: only [deposit] can overdraw: if the balance is not negative and
    no deposit has a negative amount, then after any sequence of deposits
    and withdrawals (refused or not, of whatever amounts) the balance is
    still not negative. *)
Theorem balance_stays_non_negative (w : world heap) a b (ms : list mutation) :
  store w !! a = Some (AccountObj b) →
  0 ≤ b →
  Forall (λ m, match m with Deposit amount => 0 ≤ amount | Withdraw _ => True end)
         ms →
  ∃ b', balance_at a (mutate_all a ms w) = Some b' ∧ 0 ≤ b'.
Proof.
  intros Ha Hb Hms. revert w b Ha Hb.
  induction Hms as [|mu ms Hmu _ IH]; intros w b Ha Hb.
  - exists b. unfold balance_at. simpl. by rewrite Ha.
  - unfold mutate_all in *. simpl.
    assert (a < length (store w))%nat as Hla by (by eapply lookup_lt_Some).
    destruct mu as [amount|amount]; simpl; unfold exec.
    + rewrite (deposit_ok _ _ _ _ Ha).
      apply (IH _ (b + amount)); [by apply list_lookup_insert_eq|lia].
    + destruct (decide (amount > b)) as [Hgt|Hle].
      * rewrite (withdraw_refused _ _ _ _ Ha Hgt). by apply (IH _ b).
      * rewrite (withdraw_ok _ _ _ _ Ha) by lia.
        apply (IH _ (b - amount)); [by apply list_lookup_insert_eq|lia].
Qed.

Lemma balance_stays_non_negative_witness :
  ∃ b', balance_at 0
          (mutate_all 0 [Withdraw 30; Deposit 0; Withdraw 500; Withdraw (-5)]
             after_first_deposit) = Some b' ∧ 0 ≤ b'.
Proof.
  apply (balance_stays_non_negative after_first_deposit 0%nat 100
           [Withdraw 30; Deposit 0; Withdraw 500; Withdraw (-5)] eq_refl).
  - lia.
  - repeat constructor; lia.
Defined.

(** X10: restoring checks no provenance: a memento saved from one
    account restores into any other account, whose balance becomes the
    balance the first account had when the memento was made. *)
Theorem restore_takes_any_memento (w : world heap) a1 a2 b1 b2 :
  store w !! a1 = Some (AccountObj b1) →
  store w !! a2 = Some (AccountObj b2) →
  let m := length (store w) in
  let w1 := exec (save_state a1) w in
  outcome (save_state a1) w = Ret m ∧
  outcome (restore_state a2 m) w1 = Ret VNone ∧
  balance_at a2 (exec (restore_state a2 m) w1) = Some b1.
Proof.
  intros H1 H2 m w1.
  assert (save_state a1 w = (Ret m, World (store w ++ [MementoObj b1]) (stdout w)))
    as Hsave.
  { unfold save_state. by rewrite (bind_Ret _ _ _ _ _ (Account_balance_ok _ _ _ H1)). }
  assert (store w1 !! a2 = Some (AccountObj b2)) as H2'.
  { unfold w1, exec. rewrite Hsave. simpl. by apply lookup_app_l_Some. }
  assert (store w1 !! m = Some (MementoObj b1)) as Hm.
  { unfold w1, exec. rewrite Hsave. simpl.
    rewrite lookup_app_r by (unfold m; lia). unfold m. by rewrite Nat.sub_diag. }
  unfold outcome, exec. rewrite Hsave, (restore_state_ok _ _ _ _ _ H2' Hm).
  split; [done|]. split; [done|]. simpl. unfold balance_at. simpl.
  rewrite list_lookup_insert_eq; [done|]. by eapply lookup_lt_Some.
Qed.

Lemma restore_takes_any_memento_witness :
  balance_at 1
    (exec (restore_state 1 2)
       (exec (save_state 0) (World [AccountObj 70; AccountObj 5] [])))
  = Some 70.
Proof.
  apply (restore_takes_any_memento (World [AccountObj 70; AccountObj 5] [])
           0%nat 1%nat 70 5 eq_refl eq_refl).
Defined.

(** X11: caretakers do not interfere: a save or an undo through one
    caretaker leaves every other caretaker, its account reference and its
    history, exactly as it was, also when both look after the same account. *)
Theorem caretakers_are_independent (w : world heap) c c' a h :
  c' ≠ c →
  store w !! c' = Some (CaretakerObj a h) →
  store (exec (save c) w) !! c' = Some (CaretakerObj a h) ∧
  store (exec (undo c) w) !! c' = Some (CaretakerObj a h).
Proof.
  intros Hne Hc'. split; [by apply caretaker_save|by apply caretaker_undo].
Qed.

Lemma caretakers_are_independent_witness :
  store (exec (save 1)
           (World [AccountObj 9; CaretakerObj 0 []; CaretakerObj 0 []] []))
    !! 2%nat = Some (CaretakerObj 0 []) ∧
  store (exec (undo 1)
           (World [AccountObj 9; CaretakerObj 0 []; CaretakerObj 0 []] []))
    !! 2%nat = Some (CaretakerObj 0 []).
Proof.
  apply (caretakers_are_independent
           (World [AccountObj 9; CaretakerObj 0 []; CaretakerObj 0 []] [])
           1%nat 2%nat 0%nat []); [lia|reflexivity].
Defined.

End MementoMore.

(** ** The weather subject, continued *)

Module ObserverMore.
Import Observer PyFacts ObserverFacts.

Lemma remove_first_snoc (o : loc) (l : list loc) :
  o ∉ l → remove_first o (l ++ [o]) = l.
Proof.
  induction l as [|y l IH]; intros Hnot; simpl.
  - by rewrite decide_True.
  - apply not_elem_of_cons in Hnot as [Hne Hnot].
    rewrite decide_False by done. by rewrite IH.
Qed.

Lemma remove_first_filter (o : loc) (l : list loc) :
  NoDup l → remove_first o l = filter (λ x, x ≠ o) l.
Proof.
  induction 1 as [|y l Hy Hl IH]; [done|]. simpl.
  destruct (decide (y = o)) as [->|Hne].
  - rewrite filter_cons_False by naive_solver.
    clear IH Hl. induction l as [|z l IH]; [done|].
    apply not_elem_of_cons in Hy as [Hz Hy].
    rewrite filter_cons_True by done. by rewrite <-IH.
  - rewrite filter_cons_True by done. by rewrite IH.
Qed.

Lemma observers_of_detach (o : loc) (w : world Store) :
  observers_of (exec (detach o) w) = remove_first o (observers_of w).
Proof.
  unfold exec. rewrite detach_eq. simpl.
  destruct (bool_decide (o ∈ observers_of w)) eqn:Hin; [done|].
  apply bool_decide_eq_false in Hin.
  induction (observers_of w) as [|y l IH]; [done|]. simpl.
  apply not_elem_of_cons in Hin as [Hne Hin].
  rewrite decide_False by done. by rewrite <-IH.
Qed.

(** X12: detaching an observer right after attaching it, when it was not
    registered before, is a round trip: the subject is as it was. *)
Theorem detach_undoes_attach (o : loc) (w : world Store) :
  o ∉ observers_of w → exec (detach o) (exec (attach o) w) = w.
Proof.
  intros Hnot. unfold exec. rewrite attach_eq. simpl.
  rewrite bool_decide_false by done. rewrite detach_eq. simpl.
  rewrite bool_decide_true
    by (apply elem_of_app; right; by apply list_elem_of_singleton).
  unfold with_observers, observers_of, temperature_of in *. simpl.
  rewrite remove_first_snoc by done. by destruct w as [[[obs t] d] out].
Qed.

Lemma detach_undoes_attach_witness :
  exec (detach 7) (exec (attach 7) (subject [0%nat; 1%nat] 25))
  = subject [0%nat; 1%nat] 25.
Proof.
  apply (detach_undoes_attach 7%nat (subject [0%nat; 1%nat] 25)).
  apply (bool_decide_unpack _). reflexivity.
Defined.

(** X13: [detach] never raises, registered or not; on a registry that
    holds nobody twice it removes the observer and keeps all the others in
    their order, so the observer is no longer registered afterwards. *)
Theorem detach_removes_and_keeps_order (o : loc) (w : world Store) :
  NoDup (observers_of w) →
  outcome (detach o) w = Ret VNone ∧
  observers_of (exec (detach o) w) = filter (λ x, x ≠ o) (observers_of w) ∧
  o ∉ observers_of (exec (detach o) w).
Proof.
  intros Hnd. split; [unfold outcome; by rewrite detach_eq|].
  rewrite observers_of_detach, remove_first_filter by done.
  split; [done|]. intros [Hne _]%list_elem_of_filter. done.
Qed.

Lemma detach_removes_and_keeps_order_witness :
  observers_of (exec (detach 1) (subject [0%nat; 1%nat; 2%nat] 25))
  = [0%nat; 2%nat].
Proof.
  apply (detach_removes_and_keeps_order 1%nat
           (subject [0%nat; 1%nat; 2%nat] 25)).
  apply (bool_decide_unpack _). reflexivity.
Defined.

Lemma serve_all_cons ub rounds (r : request) (rs : list request)
    (w : world Store) :
  serve_all ub rounds (r :: rs) w =
  serve_all ub rounds rs (exec (serve ub rounds r) w).
Proof. reflexivity. Qed.

Lemma exec_serve_attach ub rounds (o : loc) (w : world Store) :
  exec (serve ub rounds (DoAttach o)) w = exec (attach o) w.
Proof. unfold exec. simpl. unfold mbind, M_bind. by rewrite attach_eq. Qed.

Lemma exec_serve_detach ub rounds (o : loc) (w : world Store) :
  exec (serve ub rounds (DoDetach o)) w = exec (detach o) w.
Proof. unfold exec. simpl. unfold mbind, M_bind. by rewrite detach_eq. Qed.

(** X14: the registry keeps the order of attachment: attaching observers
    that are new to the subject, one after the other, appends them to the
    registry in that order, which is the order in which they are notified. *)
Theorem attach_appends_in_order ub rounds (l : list loc) (w : world Store) :
  NoDup (observers_of w ++ l) →
  observers_of (serve_all ub rounds (DoAttach <$> l) w) = observers_of w ++ l.
Proof.
  revert w. induction l as [|o l IH]; intros w Hnd.
  - by rewrite app_nil_r.
  - rewrite fmap_cons, serve_all_cons, exec_serve_attach.
    assert (o ∉ observers_of w) as Hnot.
    { apply NoDup_app in Hnd as (_ & Hd & _). intros Hin.
      apply (Hd o Hin). apply elem_of_cons. by left. }
    assert (observers_of (exec (attach o) w) = observers_of w ++ [o]) as Ho.
    { rewrite observers_of_attach. by rewrite bool_decide_false. }
    rewrite IH; rewrite Ho, <-app_assoc; done.
Qed.

Lemma attach_appends_in_order_witness :
  observers_of (serve_all displays 3 (DoAttach <$> [4%nat; 2%nat; 9%nat])
                  subject_new)
  = [4%nat; 2%nat; 9%nat].
Proof.
  apply (attach_appends_in_order displays 3%nat [4%nat; 2%nat; 9%nat]
           subject_new).
  apply (bool_decide_unpack _). reflexivity.
Defined.

(** X15: the registry of a subject never holds an observer twice: this
    is so for a new subject and stays so through any sequence of attach,
    detach and set_temperature requests, whatever the observers' callbacks
    attach, detach or raise. *)
Theorem registry_never_holds_duplicates ub rounds (rs : list request) :
  NoDup (observers_of (serve_all ub rounds rs subject_new)).
Proof.
  assert (∀ w, NoDup (observers_of w) →
               NoDup (observers_of (serve_all ub rounds rs w))) as H.
  { induction rs as [|r rs IH]; intros w Hnd; [done|].
    rewrite serve_all_cons. apply IH. destruct r as [o|o|t].
    - rewrite exec_serve_attach. by apply attach_NoDup.
    - rewrite exec_serve_detach. by apply detach_NoDup.
    - simpl. unfold exec. rewrite set_temperature_eq. unfold notify.
      by apply (notify_from_NoDup ub rounds 0 (with_temperature t w)). }
  apply H. constructor.
Qed.

Lemma notify_from_calls ub (rounds : nat) :
  ∀ (i : nat) (w : world Store),
    ∃ calls,
      delivered (store (exec (notify_from ub rounds i) w)) =
        delivered (store w) ++ calls ∧
      Forall (λ d, d.2 = temperature_of w) calls ∧
      temperature_of (exec (notify_from ub rounds i) w) = temperature_of w.
Proof.
  induction rounds as [|rounds IH]; intros i w.
  - exists []. by rewrite app_nil_r.
  - destruct (observers_of w !! i) as [o|] eqn:Ho.
    + unfold exec. rewrite (notify_from_step _ _ _ _ _ Ho).
      unfold mbind, M_bind. rewrite update_eq.
      set (w1 := extended [(o, temperature_of w)] [] w).
      destruct (run_body_frame (ub o (temperature_of w)) w1) as (Hd & Ht & _).
      unfold exec in Hd, Ht.
      destruct (run_body (ub o (temperature_of w)) w1) as [[v|e] w2];
        simpl in Hd, Ht.
      * destruct (IH (S i) w2) as (calls & Hc & Hf & Ht2). unfold exec in Hc, Ht2.
        exists ((o, temperature_of w) :: calls).
        rewrite Hc, Hd, Ht2, Ht. simpl. rewrite <-app_assoc.
        split; [done|]. split; [|done].
        constructor; [done|]. by rewrite Ht in Hf.
      * exists [(o, temperature_of w)]. simpl. rewrite Hd, Ht. simpl.
        split; [done|]. split; [|done]. by constructor.
    + unfold exec. rewrite (notify_from_end _ _ _ _ Ho).
      exists []. by rewrite app_nil_r.
Qed.

(** X16: as long as no callback sets the temperature itself, observers
    are only ever told the new temperature: for callbacks that print,
    attach, detach or raise, in any combination, and however the round
    ends, [set_temperature(t)] stores [t], leaves the record of earlier
    calls in place, and every call of an [update] it makes passes [t]. *)
Theorem observers_see_the_new_temperature ub (rounds : nat) (t : Z)
    (w : world Store) :
  ∃ calls,
    delivered (store (exec (set_temperature ub rounds t) w)) =
      delivered (store w) ++ calls ∧
    Forall (λ d, d.2 = t) calls ∧
    temperature_of (exec (set_temperature ub rounds t) w) = t.
Proof.
  unfold exec. rewrite set_temperature_eq. unfold notify.
  destruct (notify_from_calls ub rounds 0 (with_temperature t w))
    as (calls & Hc & Hf & Ht).
  exists calls. unfold exec in Hc, Ht. by rewrite Hc, Ht.
Qed.




Lemma remove_first_middle (o : loc) (pre rest : list loc) :
  o ∉ pre → remove_first o (pre ++ o :: rest) = pre ++ rest.
Proof.
  induction pre as [|y pre IH]; intros Hnot; simpl.
  - by rewrite decide_True.
  - apply not_elem_of_cons in Hnot as [Hne Hnot].
    rewrite decide_False by done. by rewrite IH.
Qed.

(** The walk over a stretch of observers that only print. *)
Lemma notify_from_prefix ub (pre : list loc) :
  ∀ (rounds i : nat) (w : world Store) (rest : list loc),
    drop i (observers_of w) = pre ++ rest →
    (∀ p, p ∈ pre → prints_only (ub p (temperature_of w))) →
    notify_from ub (length pre + rounds) i w =
    notify_from ub rounds (i + length pre)
      (extended ((λ p, (p, temperature_of w)) <$> pre)
                (concat ((λ p, lines_of (ub p (temperature_of w))) <$> pre))
                w).
Proof.
  induction pre as [|p pre IH]; intros rounds i w rest Hd Hp.
  - simpl. by rewrite Nat.add_0_r, extended_nil.
  - apply drop_cons_inv in Hd as [Ho Hd].
    change (length (p :: pre) + rounds)%nat with (S (length pre + rounds)).
    rewrite (notify_from_step _ _ _ _ _ Ho).
    assert (prints_only (ub p (temperature_of w))) as Hpp
      by (apply Hp, elem_of_cons; by left).
    rewrite (bind_Ret _ _ _ _ _ (update_prints _ _ _ _ Hpp)).
    rewrite (IH rounds (S i) _ rest); simpl.
    + rewrite extended_extended. simpl.
      by replace (i + S (length pre))%nat with (S (i + length pre)) by lia.
    + done.
    + intros p' Hp'. apply Hp, elem_of_cons. by right.
Qed.

(** X18: an observer that detaches itself in its callback makes the
    observer registered right after it miss that notification: the walk
    goes on by position over the shortened registry, so everybody before
    and after is called once, in order, and the next in line is not called;
    it stays registered and is called again from the next round on. *)
Theorem self_detaching_observer_hides_the_next ub (rounds : nat)
    (w : world Store) (pre : list loc) (o next : loc) (post : list loc) :
  observers_of w = pre ++ o :: next :: post →
  NoDup (observers_of w) →
  (∀ p, p ∈ pre ++ post → prints_only (ub p (temperature_of w))) →
  ub o (temperature_of w) = [Detach o] →
  (length (observers_of w) < rounds)%nat →
  let w' := exec (notify ub rounds) w in
  outcome (notify ub rounds) w = Ret (Some VNone) ∧
  delivered (store w') =
    delivered (store w) ++ ((λ p, (p, temperature_of w)) <$> pre ++ o :: post) ∧
  observers_of w' = pre ++ next :: post.
Proof.
  intros Hobs Hnd Hp Ho Hr w'. unfold w', outcome, exec, notify. clear w'.
  set (t := temperature_of w) in *.
  rewrite Hobs, length_app in Hr. simpl in Hr.
  assert (o ∉ pre) as Hopre.
  { rewrite Hobs in Hnd. apply NoDup_app in Hnd as (_ & Hd & _).
    intros Hin. apply (Hd o Hin). apply elem_of_cons. by left. }
  replace rounds with (length pre + S (rounds - length pre - 1))%nat by lia.
  rewrite (notify_from_prefix ub pre _ 0 w (o :: next :: post)); [|done|].
  2: { intros p Hin. apply Hp, elem_of_app. by left. }
  set (w1 := extended _ _ w).
  assert (observers_of w1 = pre ++ o :: next :: post) as Hobs1 by done.
  rewrite (notify_from_step ub _ _ w1 o).
  2: { rewrite Hobs1. simpl. rewrite lookup_app_r by lia.
       by rewrite Nat.sub_diag. }
  set (w2 := extended [(o, t)] [] w1).
  set (w3 := with_observers (pre ++ next :: post) w2).
  assert (run_body [Detach o] w2 = (Ret VNone, w3)) as Hrun.
  { simpl. rewrite (bind_Ret _ _ w2 VNone w3); [done|].
    rewrite detach_eq. rewrite bool_decide_true.
    - unfold w3. f_equal. f_equal.
      change (observers_of w2) with (observers_of w1). rewrite Hobs1.
      by apply remove_first_middle.
    - change (observers_of w2) with (observers_of w1). rewrite Hobs1.
      apply elem_of_app. right. apply elem_of_cons. by left. }
  assert (update ub o (temperature_of w1) w1 = (Ret VNone, w3)) as Hupd.
  { rewrite update_eq. change (temperature_of w1) with t. by rewrite Ho. }
  rewrite (bind_Ret _ _ _ _ _ Hupd).
  rewrite (notify_from_prints ub post _ (S (0 + length pre)) w3).
  - simpl. split; [done|]. split; [|done].
    by rewrite fmap_app, fmap_cons, <-!app_assoc.
  - change (observers_of w3) with (pre ++ next :: post). simpl.
    change (S (length pre)) with (1 + length pre)%nat.
    rewrite Nat.add_comm, <-drop_drop, drop_app_length. done.
  - intros p Hin. apply Hp, elem_of_app. by right.
  - lia.
Qed.

Lemma self_detaching_observer_hides_the_next_witness :
  notified (exec (notify one_shot 5) (subject [0%nat; 1%nat; 2%nat] 25))
  = [0%nat; 2%nat] ∧
  observers_of (exec (notify one_shot 5) (subject [0%nat; 1%nat; 2%nat] 25))
  = [1%nat; 2%nat].
Proof.
  assert (∀ p, p ∈ [] ++ [2%nat] → prints_only (one_shot p 25)) as Hp
    by (intros p ->%list_elem_of_singleton; repeat constructor).
  assert (NoDup (observers_of (subject [0%nat; 1%nat; 2%nat] 25))) as Hnd
    by (apply (bool_decide_unpack _); reflexivity).
  pose proof (self_detaching_observer_hides_the_next one_shot 5%nat
                (subject [0%nat; 1%nat; 2%nat] 25) [] 0%nat 1%nat [2%nat]
                eq_refl Hnd Hp eq_refl
                ltac:(simpl; lia)) as H.
  split; [|apply H]. unfold notified. by rewrite (proj1 (proj2 H)).
Defined.

End ObserverMore.
